(** * FXdownloader self-update: the replacement scripts and their launcher

    This development embeds [apply_windows_update], [apply_unix_update] and
    [apply_update] of [src/updater.py] together with the two scripts these
    functions generate (a Windows batch file and a POSIX shell script), and
    proves properties of the update-application protocol.

    The scripts are program text produced by an f-string.  They are embedded
    command by command as computations in a small state monad over a model
    of the machine they run on: a file system, a working directory, and a
    log of every external command executed together with the file system it
    left behind.  Everything the scripts cannot control (whether a process
    is still listed, whether a file operation succeeds, what a failed copy
    leaves at its destination) is read from an environment [env], over which
    the theorems quantify.  Console output ([echo], [print]) is not
    modelled.

    The templates paste every path between double quotes, and the model
    takes the command to act on the file of that name.  This is what the
    interpreters do for the paths called plain below ([bat_plain],
    [sh_plain]), which hold no character that is special between double
    quotes or to the commands; for any other path the interpreter rewrites
    the text first and the commands act elsewhere.  Every theorem
    about what a script does to the file at a path takes the paths to be
    plain.  The file system is a map from path texts to contents: two texts
    that differ name two files. *)

From stdpp Require Import gmap strings list.
From Stdlib Require Import ZArith Lia.

Set Default Proof Using "Type".

(** ** Values substituted into the script templates *)

(** The names the batch template refers to: [{pid}], [{exe_name}],
    [{exe_dir}], [{current_exe_path}], [{new_exe_path}]. *)
Record bat_vars := {
  pid : Z;
  exe_name : string;
  exe_dir : string;
  current_exe_path : string;
  new_exe_path : string
}.

(** The names the shell template refers to: [{pid}],
    [{current_binary_path}], [{new_binary_path}]. *)
Record sh_vars := {
  sh_pid : Z;
  current_binary_path : string;
  new_binary_path : string
}.

(** ** Paths that denote themselves

    Between double quotes [bash] still expands [$], the backquote and the
    backslash.  A batch file expands [%] everywhere, and this one runs under
    [setlocal enabledelayedexpansion], so that [!] is expanded too and [^]
    is an escape beside it.  A double quote ends the quoted text in both
    dialects, and in a batch file so does the end of the line.  The
    commands have their own reading of an argument: [del], [move], [copy]
    and [if exist] take [*] and [?] for wild cards.  A text is plain when
    it is not empty and none of this applies to it.

    A path, moreover, has to name the same file wherever a command is run:
    the batch file changes its directory ([cd /d], [pushd]) between
    commands on the same path, and [nohup] looks a name without a slash up
    in [PATH].  A path is plain when its text is and it is absolute: a
    drive letter, a colon and a slash of either kind in a batch file, a
    leading slash in the shell script (which also keeps [cp], [rm] and
    [chmod] from taking it for an option). *)

Definition double_quote : Ascii.ascii := Ascii.ascii_of_nat 34.
Definition line_feed : Ascii.ascii := Ascii.ascii_of_nat 10.
Definition carriage_return : Ascii.ascii := Ascii.ascii_of_nat 13.
Definition backslash : Ascii.ascii := Ascii.ascii_of_nat 92.
Definition slash : Ascii.ascii := Ascii.ascii_of_nat 47.
Definition colon : Ascii.ascii := Ascii.ascii_of_nat 58.

(** No character of [s] is one of [special]. *)
Definition free_of (special : list Ascii.ascii) (s : string) : bool :=
  forallb (λ c, negb (bool_decide (c ∈ special)))
    (String.list_ascii_of_string s).

(** [A] to [Z] and [a] to [z]. *)
Definition is_letter (c : Ascii.ascii) : bool :=
  let n := Ascii.nat_of_ascii c in
  (65 <=? n) && (n <=? 90) || (97 <=? n) && (n <=? 122).

(** [X:\...] or [X:/...]. *)
Definition win_absolute (path : string) : bool :=
  match String.list_ascii_of_string path with
  | d :: c :: s :: _ =>
      is_letter d && bool_decide (c = colon)
      && bool_decide (s ∈ [backslash; slash])
  | _ => false
  end.

(** A text pasted into the batch template that denotes itself. *)
Definition bat_text_plain (s : string) : bool :=
  negb (bool_decide (s = EmptyString))
  && free_of (String.list_ascii_of_string "%!^*?"
              ++ [double_quote; line_feed; carriage_return]) s.

Definition bat_plain (path : string) : bool :=
  bat_text_plain path && win_absolute path.

Definition sh_plain (path : string) : bool :=
  String.prefix "/" path
  && free_of (String.list_ascii_of_string "$`"
              ++ [backslash; double_quote]) path.

(** Every text pasted into the batch template is plain: the image name as
    a text, the rest as paths. *)
Definition bat_vars_plain (v : bat_vars) : bool :=
  bat_text_plain (exe_name v) && bat_plain (exe_dir v)
  && bat_plain (current_exe_path v) && bat_plain (new_exe_path v).

(** Every path pasted into the shell template is plain. *)
Definition sh_vars_plain (v : sh_vars) : bool :=
  sh_plain (current_binary_path v) && sh_plain (new_binary_path v).

(** ** Files *)

(** A file is either opaque bytes (an executable, say) or one of the two
    generated scripts, identified by the values substituted into it. *)
Inductive content :=
| Bytes (b : string)
| BatFile (v : bat_vars)
| ShFile (v : sh_vars).

(** ** The machine a script runs on *)

(** The states of the replacement protocol; each command of a script is
    attributed to the state under whose heading or message it appears in
    the source. *)
Inductive phase :=
| WaitForExit | ForceKill | ProcessExited | Backup | Install | Rollback
| Cleanup | Restart | SelfDelete.

Inductive launcher := Explorer | CmdStart | Nohup.

(** External commands, with the outcome the script can observe. *)
Inductive event :=
| Probe_pid (p : Z) (found : bool)
| Probe_image (name : string) (found : bool)
| Kill_pid (p : Z)
| Kill_image (name : string)
| Sleep (secs : nat)
| Del (path : string) (ok : bool)
| Move (src dst : string) (ok : bool)
| Copy (src dst : string) (ok : bool)
| Chmod_x (path : string)
| Start (how : launcher) (path dir : string)
| Pause.

(** What a failed copy may leave at its destination. *)
Inductive damage :=
| Untouched
| Removed
| Garbled (c : content).

(** One executed command: the protocol state it belongs to, the command,
    and the file system right after it. *)
Record entry := {
  stage : phase;
  what : event;
  disk : gmap string content
}.

Record machine := {
  fs : gmap string content;
  cwd : string;
  dirstack : list string;
  stage_now : phase;
  log : list entry
}.

(** The environment answers by position in the run: the [n]-th external
    command (counting from 0) is told whether it succeeds, what damage it
    does when it is a failing copy, and whether the process it looks for is
    listed. *)
Record env := {
  op_ok : nat → bool;
  op_damage : nat → damage;
  ps_found : nat → bool
}.

(** How a computation ends: it hands on a value (for a whole script: it
    has no command left, and no exit statement was run), the script stops
    with an exit code, or the model runs out of fuel inside a loop that is
    still going. *)
Inductive result (A : Type) :=
| Next (a : A) (m : machine)
| Exit (code : Z) (m : machine)
| Hang (m : machine).
Arguments Next {A} a m.
Arguments Exit {A} code m.
Arguments Hang {A} m.

Definition script (A : Type) : Type := env → machine → result A.

#[global] Instance script_ret : MRet script := λ A a _ m, Next a m.

#[global] Instance script_bind : MBind script := λ A B f c E m,
  match c E m with
  | Next a m' => f a E m'
  | Exit z m' => Exit z m'
  | Hang m' => Hang m'
  end.

Definition final {A} (r : result A) : machine :=
  match r with Next _ m | Exit _ m | Hang m => m end.

Definition exit_code {A} (r : result A) : option Z :=
  match r with Exit z _ => Some z | _ => None end.

Definition events (m : machine) : list event := what <$> log m.

Definition now (m : machine) : nat := length (log m).

(** Run one external command: the file system becomes [f] and the command
    is logged under the current protocol state. *)
Definition exec (e : event) (f : gmap string content) (m : machine) : machine :=
  {| fs := f; cwd := cwd m; dirstack := dirstack m; stage_now := stage_now m;
     log := log m ++ [ {| stage := stage_now m; what := e; disk := f |} ] |}.

Definition enter (p : phase) : script () := λ _ m,
  Next () {| fs := fs m; cwd := cwd m; dirstack := dirstack m; stage_now := p;
             log := log m |}.

Definition exit_script {A} (code : Z) : script A := λ _ m, Exit code m.

Definition out_of_fuel {A} : script A := λ _ m, Hang m.

Definition wreck (d : damage) (dst : string) (f : gmap string content)
  : gmap string content :=
  match d with
  | Untouched => f
  | Removed => delete dst f
  | Garbled c => <[dst := c]> f
  end.

(** [tasklist /FI "PID eq p" | find "p"] and [kill -0 p]: is the process
    still there? *)
Definition probe_pid (p : Z) : script bool := λ E m,
  let b := ps_found E (now m) in Next b (exec (Probe_pid p b) (fs m) m).

(** [tasklist /FI "IMAGENAME eq name" | find /I "name"]. *)
Definition probe_image (name : string) : script bool := λ E m,
  let b := ps_found E (now m) in Next b (exec (Probe_image name b) (fs m) m).

(** [taskkill /F /PID p]; the script discards its outcome. *)
Definition taskkill_pid (p : Z) : script () := λ _ m,
  Next () (exec (Kill_pid p) (fs m) m).

(** [taskkill /F /IM name]; the script discards its outcome. *)
Definition taskkill_image (name : string) : script () := λ _ m,
  Next () (exec (Kill_image name) (fs m) m).

Definition sleep (secs : nat) : script () := λ _ m,
  Next () (exec (Sleep secs) (fs m) m).

(** [ping -n n 127.0.0.1 >nul]: [n] echo requests one second apart, the
    batch idiom for a delay of [n - 1] seconds. *)
Definition ping_n (n : nat) : script () := sleep (n - 1).

(** [if exist "path"] and [[ -f "path" ]]. *)
Definition exist (path : string) : script bool := λ _ m,
  Next (bool_decide (is_Some (fs m !! path))) m.

(** [del /F /Q path] and [rm -f path]: nothing to do when the file is
    absent, otherwise the environment decides. *)
Definition del (path : string) : script bool := λ E m,
  match fs m !! path with
  | None => Next true (exec (Del path true) (fs m) m)
  | Some _ =>
      if op_ok E (now m)
      then Next true (exec (Del path true) (delete path (fs m)) m)
      else Next false (exec (Del path false) (fs m) m)
  end.

(** [move /Y src dst]: a rename; it fails when the source is absent or
    when the environment says so, and a failed rename changes nothing. *)
Definition move (src dst : string) : script bool := λ E m,
  match fs m !! src with
  | None => Next false (exec (Move src dst false) (fs m) m)
  | Some c =>
      if op_ok E (now m)
      then Next true (exec (Move src dst true) (<[dst := c]> (delete src (fs m))) m)
      else Next false (exec (Move src dst false) (fs m) m)
  end.

(** [copy /Y src dst] and [cp src dst]: both refuse to copy a file onto
    itself and fail when the source is absent, leaving the destination
    alone; otherwise the environment decides, and the destination of a
    failed copy suffers the damage the environment chooses. *)
Definition copy (src dst : string) : script bool := λ E m,
  match fs m !! src with
  | None => Next false (exec (Copy src dst false) (fs m) m)
  | Some c =>
      if bool_decide (src = dst)
      then Next false (exec (Copy src dst false) (fs m) m)
      else if op_ok E (now m)
      then Next true (exec (Copy src dst true) (<[dst := c]> (fs m)) m)
      else Next false
             (exec (Copy src dst false) (wreck (op_damage E (now m)) dst (fs m)) m)
  end.

Definition chmod_x (path : string) : script () := λ _ m,
  Next () (exec (Chmod_x path) (fs m) m).

(** Start [path] as a new process; the launch is logged with the working
    directory it inherits. *)
Definition start (how : launcher) (path : string) : script () := λ _ m,
  Next () (exec (Start how path (cwd m)) (fs m) m).

(** [pause] and [read -p ...]: wait for a key. *)
Definition pause : script () := λ _ m, Next () (exec Pause (fs m) m).

(** [cd /d dir]. *)
Definition cd (dir : string) : script () := λ _ m,
  Next () {| fs := fs m; cwd := dir; dirstack := dirstack m;
             stage_now := stage_now m; log := log m |}.

Definition pushd (dir : string) : script () := λ _ m,
  Next () {| fs := fs m; cwd := dir; dirstack := cwd m :: dirstack m;
             stage_now := stage_now m; log := log m |}.

Definition popd : script () := λ _ m,
  match dirstack m with
  | [] => Next () m
  | d :: ds => Next () {| fs := fs m; cwd := d; dirstack := ds;
                          stage_now := stage_now m; log := log m |}
  end.

Definition when (b : bool) (c : script ()) : script () :=
  if b then c else mret ().

(** ** The batch script of [apply_windows_update]

    Labels of the batch file are functions; [goto :label] is a call in tail
    position.  The code that follows [:move_retry] without a label of its
    own is split at the source's section comments. *)

Section batch.
Context (v : bat_vars) (self : string).

Definition old_path : string := current_exe_path v +:+ ".old".

(** From [echo Starting new version in 3 seconds...] to the end.  The last
    line that runs is [(goto) 2>nul & del /F /Q "%~f0"]: a [goto] without a
    label fails, and a failing [goto] ends the batch file on the spot; the
    [del] beside it was read with it and is still run.  No later line is
    read, so the [exit /b 0] that follows never runs and the script sets no
    exit code of its own on this path. *)
Definition bat_restart : script () :=
  enter Restart;;
  ping_n 4;;
  cd (exe_dir v);;
  there ← exist (current_exe_path v);
  if negb there then pause;; exit_script 1 else
  pushd (exe_dir v);;
  start Explorer (current_exe_path v);;
  ping_n 4;;
  running ← probe_image (exe_name v);
  when (negb running) (start CmdStart (current_exe_path v);; ping_n 3);;
  popd;;
  ping_n 6;;
  enter SelfDelete;;
  del self;;
  mret ().

(** From [:: Copy new exe to original location] through [:: Cleanup]. *)
Definition bat_install : script () :=
  enter Install;;
  ok ← copy (new_exe_path v) (current_exe_path v);
  if negb ok then
    enter Rollback;;
    backed ← exist old_path;
    when backed (move old_path (current_exe_path v);; mret ());;
    pause;;
    exit_script 1
  else
  enter Cleanup;;
  del (new_exe_path v);;
  del old_path;;
  bat_restart.

(** [:move_retry]; [retry] is the batch variable of that name. *)
Fixpoint move_retry (fuel : nat) (retry : Z) : script () :=
  match fuel with
  | O => out_of_fuel
  | S fuel =>
      del old_path;;
      there ← exist (current_exe_path v);
      if (there : bool) then
        ok ← move (current_exe_path v) old_path;
        if negb ok then
          let retry := (retry + 1)%Z in
          if (retry <? 5)%Z then
            taskkill_image (exe_name v);;
            ping_n 3;;
            move_retry fuel retry
          else
            pause;;
            exit_script 1
        else bat_install
      else bat_install
  end.

(** [:process_exited], up to [set /a retry=0]. *)
Definition process_exited (fuel : nat) : script () :=
  enter ProcessExited;;
  taskkill_image (exe_name v);;
  ping_n 3;;
  enter Backup;;
  move_retry fuel 0.

(** [:force_kill], which falls through into [:process_exited]. *)
Definition force_kill (fuel : nat) : script () :=
  enter ForceKill;;
  taskkill_pid (pid v);;
  ping_n 2;;
  process_exited fuel.

(** [:waitloop]; [count] is the batch variable of that name. *)
Fixpoint waitloop (fuel rest : nat) (count : Z) : script () :=
  match rest with
  | O => out_of_fuel
  | S rest =>
      found ← probe_pid (pid v);
      if negb found then process_exited fuel else
      let count := (count + 1)%Z in
      if (count >=? 30)%Z then force_kill fuel else
      ping_n 2;;
      waitloop fuel rest count
  end.

(** The whole batch file, from [set /a count=0]. *)
Definition bat_content (fuel : nat) : script () :=
  enter WaitForExit;;
  waitloop fuel fuel 0.
End batch.

(** ** The shell script of [apply_unix_update] *)

Section shell.
Context (v : sh_vars) (self : string).

(** [BACKUP_PATH="{current_binary_path}.backup"]. *)
Definition BACKUP_PATH : string := current_binary_path v +:+ ".backup".

(** [while kill -0 {pid} 2>/dev/null; do sleep 1; done]. *)
Fixpoint sh_wait (fuel : nat) : script () :=
  match fuel with
  | O => out_of_fuel
  | S fuel =>
      alive ← probe_pid (sh_pid v);
      if (alive : bool) then sleep 1;; sh_wait fuel else mret ()
  end.

(** The [if [ -f ... ]] block under the heading that announces the
    backup of the old version. *)
Definition sh_backup : script () :=
  enter Backup;;
  there ← exist (current_binary_path v);
  when there
    (ok ← copy (current_binary_path v) BACKUP_PATH;
     when (negb ok) (pause;; exit_script 1)).

(** The copy of the new version, its failure branch, and [chmod +x]. *)
Definition sh_install : script () :=
  enter Install;;
  ok ← copy (new_binary_path v) (current_binary_path v);
  when (negb ok)
    (enter Rollback;;
     copy BACKUP_PATH (current_binary_path v);;
     pause;;
     exit_script 1);;
  chmod_x (current_binary_path v).

Definition sh_cleanup : script () :=
  enter Cleanup;;
  del (new_binary_path v);;
  del BACKUP_PATH;;
  mret ().

(** From the message announcing the new version to [exit 0]. *)
Definition sh_restart : script () :=
  enter Restart;;
  sleep 2;;
  start Nohup (current_binary_path v);;
  enter SelfDelete;;
  del self;;
  exit_script 0.

(** The whole shell script. *)
Definition shell_content (fuel : nat) : script () :=
  enter WaitForExit;;
  sh_wait fuel;;
  sh_backup;;
  sh_install;;
  sh_cleanup;;
  sh_restart.
End shell.

(** A machine about to run a script: nothing logged yet. *)
Definition boot (f : gmap string content) (dir : string) : machine :=
  {| fs := f; cwd := dir; dirstack := []; stage_now := WaitForExit; log := [] |}.

(** ** The Python side: [apply_windows_update], [apply_unix_update],
    [apply_update] *)

(** A process started with [subprocess.Popen]. *)
Record child := {
  argv : list string;
  new_console : bool;     (* creationflags=CREATE_NEW_CONSOLE *)
  new_session : bool;     (* start_new_session=True *)
  child_cwd : option string
}.

(** What the functions do to the world around them, in order.  Of the
    console output only the messages looked up with [t(...)] are kept, by
    their key; the [[DEBUG]] lines are left out. *)
Inductive effect :=
| Sys_exists (path : string)               (* os.path.exists *)
| Sys_getsize (path : string)              (* os.path.getsize *)
| Sys_write (path : string) (ok : bool)    (* open(path, 'w') and f.write *)
| Sys_chmod (path : string)                (* os.stat and os.chmod *)
| Sys_popen (args : list string) (ok : bool)
| Sys_print (key : string).                (* print(t(key, ...)) *)

(** The interpreter state and the part of the operating system the
    functions touch.  [writable] tells whether a file can be opened for
    writing, [launchable] whether [Popen] finds the program; a failing
    [open] or [Popen] raises [OSError]. *)
Record world := {
  frozen : bool;            (* getattr(sys, 'frozen', False) *)
  executable : string;      (* sys.executable *)
  platform : string;        (* sys.platform *)
  getpid : Z;               (* os.getpid() *)
  gettempdir : string;      (* tempfile.gettempdir() *)
  files : gmap string content;
  writable : string → bool;
  launchable : string → bool;
  children : list child;
  calls : list effect
}.

Definition called (c : effect) (w : world) : world :=
  {| frozen := frozen w; executable := executable w; platform := platform w;
     getpid := getpid w; gettempdir := gettempdir w; files := files w;
     writable := writable w; launchable := launchable w;
     children := children w; calls := calls w ++ [c] |}.

Definition written (path : string) (c : content) (w : world) : world :=
  {| frozen := frozen w; executable := executable w; platform := platform w;
     getpid := getpid w; gettempdir := gettempdir w;
     files := <[path := c]> (files w);
     writable := writable w; launchable := launchable w;
     children := children w; calls := calls w ++ [Sys_write path true] |}.

Definition spawned (c : child) (w : world) : world :=
  {| frozen := frozen w; executable := executable w; platform := platform w;
     getpid := getpid w; gettempdir := gettempdir w; files := files w;
     writable := writable w; launchable := launchable w;
     children := children w ++ [c];
     calls := calls w ++ [Sys_popen (argv c) true] |}.

(** [os.path.exists]. *)
Definition path_exists (path : string) (w : world) : bool :=
  bool_decide (is_Some (files w !! path)).

(** [with open(path, 'w', encoding='utf-8') as f: f.write(c)];
    [None] stands for the exception. *)
Definition write_file (path : string) (c : content) (w : world) : option world :=
  if writable w path then Some (written path c w) else None.

(** [subprocess.Popen(...)]; [inr] stands for the exception and carries the
    world with the failed attempt recorded. *)
Definition Popen (c : child) (w : world) : world + world :=
  match argv c with
  | prog :: _ =>
      if launchable w prog then inl (spawned c w)
      else inr (called (Sys_popen (argv c) false) w)
  | [] => inr (called (Sys_popen [] false) w)
  end.

Definition dquote : string := String (Ascii.ascii_of_nat 34) EmptyString.

Section python.
(** [os.path.basename], [os.path.dirname] and [os.path.join] of the host's
    path module. *)
Variables (basename dirname : string → string) (join : string → string → string).

Definition apply_windows_update
    (new_exe_path : string) (current_exe_path : option string) (w : world)
  : bool * world :=
  if negb (frozen w) then (false, called (Sys_print "up_not_frozen") w) else
  let current_exe_path := default (executable w) current_exe_path in
  let w := called (Sys_exists new_exe_path) w in
  if negb (path_exists new_exe_path w)
  then (false, called (Sys_print "up_new_missing") w) else
  let w := called (Sys_getsize new_exe_path) w in
  let pid := getpid w in
  let exe_name := basename current_exe_path in
  let exe_dir := dirname current_exe_path in
  let bat_content :=
    BatFile {| pid := pid; exe_name := exe_name; exe_dir := exe_dir;
               current_exe_path := current_exe_path;
               new_exe_path := new_exe_path |} in
  (* try: *)
  let bat_path := join (gettempdir w) "fxdownloader_update.bat" in
  let failed w := (false, called (Sys_print "up_create_script_fail") w) in
  match write_file bat_path bat_content w with
  | None => failed (called (Sys_write bat_path false) w)
  | Some w =>
      (* subprocess.STARTUPINFO exists on win32 only *)
      if negb (bool_decide (platform w = "win32")) then failed w else
      match Popen {| argv := ["cmd.exe"; "/c"; bat_path]; new_console := true;
                     new_session := false;
                     child_cwd := Some (gettempdir w) |} w with
      | inl w => (true, called (Sys_print "up_script_started") w)
      | inr w => failed w
      end
  end.

(** The [for term_cmd in terminals] loop: the first terminal that starts
    wins; the flag is [launched]. *)
Fixpoint try_terminals (terminals : list (list string)) (w : world)
  : world * bool :=
  match terminals with
  | [] => (w, false)
  | term_cmd :: terminals =>
      match Popen {| argv := term_cmd; new_console := false;
                     new_session := true; child_cwd := None |} w with
      | inl w => (w, true)
      | inr w => try_terminals terminals w
      end
  end.

Definition apply_unix_update
    (new_binary_path : string) (current_binary_path : option string) (w : world)
  : bool * world :=
  if negb (frozen w) then (false, called (Sys_print "up_not_frozen_linux") w) else
  let current_binary_path := default (executable w) current_binary_path in
  let w := called (Sys_exists new_binary_path) w in
  if negb (path_exists new_binary_path w)
  then (false, called (Sys_print "up_new_missing_linux") w) else
  let pid := getpid w in
  let shell_content :=
    ShFile {| sh_pid := pid; current_binary_path := current_binary_path;
              new_binary_path := new_binary_path |} in
  (* try: *)
  let script_path := join (gettempdir w) "fxdownloader_update.sh" in
  let failed w := (false, called (Sys_print "up_create_script_fail") w) in
  let started w := (true, called (Sys_print "up_script_started") w) in
  match write_file script_path shell_content w with
  | None => failed (called (Sys_write script_path false) w)
  | Some w =>
      let w := called (Sys_chmod script_path) w in
      if bool_decide (platform w = "darwin") then
        match Popen {| argv := ["osascript"; "-e";
                                "tell application " +:+ dquote +:+ "Terminal"
                                +:+ dquote +:+ " to do script " +:+ dquote
                                +:+ script_path +:+ dquote];
                       new_console := false; new_session := false;
                       child_cwd := None |} w with
        | inl w => started w
        | inr w => failed w
        end
      else
        let terminals :=
          [ ["gnome-terminal"; "--"; "bash"; script_path];
            ["konsole"; "-e"; "bash"; script_path];
            ["xfce4-terminal"; "-e"; "bash " +:+ script_path];
            ["xterm"; "-e"; "bash"; script_path];
            ["termux-open"; script_path] ] in
        let '(w, launched) := try_terminals terminals w in
        if negb launched then
          match Popen {| argv := ["bash"; script_path]; new_console := false;
                         new_session := true; child_cwd := None |} w with
          | inl w => started w
          | inr w => failed w
          end
        else started w
  end.

Definition apply_update (new_file_path : string) (current_path : option string)
    (w : world) : bool * world :=
  if bool_decide (platform w = "win32") then
    apply_windows_update new_file_path current_path w
  else if bool_decide (platform w = "linux") || bool_decide (platform w = "darwin") then
    apply_unix_update new_file_path current_path w
  else (false, called (Sys_print "up_platform_unsupported") w).
End python.

(** ** The rest of [updater.py]: looking for a release

    Which platform this is, what the latest release is, which of its files
    suit the platform, and what to tell the user. *)

(** Text that comes out of the release or is shown to the user is kept by
    code point, which is how [len] and slices count it. *)
Definition text := list N.

(** A literal of the source, or a [string] of the model, as text. *)
Definition chars (s : string) : text :=
  Ascii.N_of_ascii <$> String.list_ascii_of_string s.

Section str.
Context {A : Type} `{EqDecision A}.

(** [s.startswith(pre)]. *)
Fixpoint startswith (s pre : list A) : bool :=
  match pre, s with
  | [], _ => true
  | a :: pre, b :: s => bool_decide (a = b) && startswith s pre
  | _ :: _, [] => false
  end.

(** [s.endswith(suf)]. *)
Definition endswith (s suf : list A) : bool :=
  startswith (reverse s) (reverse suf).

(** [sub in s]. *)
Fixpoint contains (sub s : list A) : bool :=
  startswith s sub
  || match s with [] => false | _ :: s' => contains sub s' end.

(** [s.lstrip(...)], [s.rstrip(...)] and [s.strip(...)], for the characters
    that satisfy [gone]. *)
Fixpoint lstrip (gone : A → bool) (s : list A) : list A :=
  match s with
  | [] => []
  | c :: s' => if gone c then lstrip gone s' else s
  end.

Definition rstrip (gone : A → bool) (s : list A) : list A :=
  reverse (lstrip gone (reverse s)).

Definition strip (gone : A → bool) (s : list A) : list A :=
  rstrip gone (lstrip gone s).
End str.

Section sort.
Context {A K : Type} (key : A → K) (lt : K → K → bool).

(** [x] goes in front of the first element whose key is not below its own. *)
Fixpoint insert_by (x : A) (l : list A) : list A :=
  match l with
  | [] => [x]
  | y :: l' => if lt (key y) (key x) then y :: insert_by x l' else x :: l
  end.

(** [l.sort(key=key)].  The sort of a Python list is stable and compares
    keys with [<] alone, which fixes its result: elements go by ascending
    key, and those that no comparison separates stay in the order they had. *)
Definition sort_by (l : list A) : list A := foldr insert_by [] l.
End sort.

(** [get_current_platform]; [environ] is [os.environ]. *)
Definition get_current_platform (environ : gmap string string) (w : world)
  : string :=
  let prefix := default EmptyString (environ !! "PREFIX") in
  if contains (chars "com.termux") (chars prefix) then "termux"
  else if bool_decide (platform w = "win32") then "windows"
  else if bool_decide (platform w = "darwin") then "macos"
  else if startswith (chars (platform w)) (chars "linux") then "linux"
  else "unknown".

(** [can_auto_update]. *)
Definition can_auto_update (w : world) : bool :=
  bool_decide (platform w ∈ ["win32"; "linux"; "darwin"]) && frozen w.

(** A value the release gives as a string or as [null] ([None]). *)
Inductive jstr := JNull | JStr (s : text).

(** [if x:] for such a value. *)
Definition truthy (x : jstr) : bool :=
  match x with JStr (_ :: _) => true | _ => false end.

(** One entry of the release's [assets]; a key that is absent is [None],
    and one that is present holds a value of the type the GitHub API gives
    it. *)
Record asset := {
  asset_name : option text;             (* 'name' *)
  asset_size : option Z;                (* 'size' *)
  browser_download_url : option text
}.

(** The dictionary of a release; a key that is absent is [None]. *)
Record release := {
  tag_name : option jstr;
  release_name : option jstr;           (* 'name' *)
  body : option jstr;
  html_url : option jstr;
  published_at : option jstr;
  assets : option (list asset)
}.

(** A str of the module's making: literal text, or what [t(key, *args)] of
    the [locales] module returns. *)
Inductive shown := Plain (s : text) | T (key : string) (args : list jstr).

(** One entry of the list [parse_release_assets] returns. *)
Record parsed_asset := {
  pa_name : text;                       (* 'name' *)
  pa_type : string;                     (* 'type' *)
  pa_size : Z;                          (* 'size' *)
  pa_size_mb : text;                    (* 'size_mb' *)
  pa_download_url : text;               (* 'download_url' *)
  pa_description : shown;               (* 'description' *)
  pa_recommended : bool                 (* 'recommended' *)
}.

(** [a < b] for the tuples the sort of [parse_release_assets] uses as keys;
    [False < True]. *)
Definition key_lt (a b : bool * string) : bool :=
  if bool_decide (a.1 = b.1) then String.ltb a.2 b.2 else negb a.1.

(** [lambda x: (not x['recommended'], x['type'])]. *)
Definition sort_key (x : parsed_asset) : bool * string :=
  (negb (pa_recommended x), pa_type x).

Section assets.
(** [str.lower], and the format [f'{size / 1024 / 1024:.1f}']. *)
Variables (lower : text → text) (format_mb : Z → text).

(** One round of the [for asset in assets] loop: [None] is [continue],
    [Some] is the entry appended. *)
Definition parse_asset (platform : string) (a : asset) : option parsed_asset :=
  let name := default [] (asset_name a) in
  let size := default 0%Z (asset_size a) in
  let download_url := default [] (browser_download_url a) in
  let entry (asset_type : string) (description : shown) (recommended : bool) :=
    Some {| pa_name := name; pa_type := asset_type; pa_size := size;
            pa_size_mb := format_mb size; pa_download_url := download_url;
            pa_description := description; pa_recommended := recommended |} in
  let unix (word : string) :=
    if negb (contains (chars word) (lower name)
             && negb (endswith name (chars ".exe")))
    then None else
    let asset_type := if contains (chars "debug") (lower name)
                      then "debug" else "release" in
    entry asset_type
      (if bool_decide (asset_type = "debug")
       then T "up_desc_linux_debug" [] else T "up_desc_linux_release" [])
      (bool_decide (asset_type = "release")) in
  if bool_decide (platform = "windows") then
    if negb (endswith name (chars ".exe")) then None
    else if contains (chars "Standalone") name
    then entry "standalone" (T "up_desc_standalone" []) true
    else if contains (chars "debug") (lower name)
    then entry "debug" (T "up_desc_debug" []) false
    else entry "standard" (T "up_desc_standard" []) false
  else if bool_decide (platform = "linux") then unix "linux"
  else if bool_decide (platform = "macos") then unix "macos"
  else None.

(** [parse_release_assets]; it prints [[DEBUG]] lines only. *)
Definition parse_release_assets (latest_info : release) (platform : string)
  : list parsed_asset :=
  let assets := default [] (assets latest_info) in
  let parsed_assets := omap (parse_asset platform) assets in
  sort_by sort_key key_lt parsed_assets.
End assets.

(** The literals ['未知版本'] and ['(无更新说明)'] of the source, by code
    point. *)
Definition unknown_version : text := [26410; 30693; 29256; 26412]%N.
Definition no_notes : text := [40; 26080; 26356; 26032; 35828; 26126; 41]%N.

Section message.
(** Whether [str.strip] takes a character for white space. *)
Variable isspace : N → bool.

(** The characters [re.sub(r'[#*`]', '', body)] removes. *)
Definition is_markup (c : N) : bool := bool_decide (c ∈ [35; 42; 96]%N).

(** [format_update_message]. *)
Definition format_update_message (latest_info : release) : shown :=
  let version := default (JStr unknown_version) (tag_name latest_info) in
  let name := default (JStr []) (release_name latest_info) in
  let body0 := default (JStr []) (body latest_info) in
  let url := default (JStr []) (html_url latest_info) in
  let body :=
    match body0 with
    | JStr ((_ :: _) as b) =>
        let body := filter (λ c, negb (is_markup c)) b in
        let body := take 300 (strip isspace body) in
        if bool_decide (300 < length b) then JStr (body ++ chars "...")
        else JStr body
    | _ => body0
    end in
  T "up_auto_update_msg"
    [version; name; if truthy body then body else JStr no_notes; url].
End message.

(** What [requests.get] returns: the status code and, when the body is a
    JSON object, that object. *)
Record response := { status_code : Z; json : option release }.

(** The dictionary [check_and_notify] returns. *)
Record notice := {
  has_update : bool;
  current_version : text;
  latest_version : jstr;
  message : shown;
  url : jstr;
  release_info : release
}.

Section check.
(** [requests.get(url, headers=..., timeout=...)], [None] when it raises;
    the [Version] of [packaging], its [parse] ([None] when it raises) and
    its [>]. *)
Variables (requests_get : text → Z → option response).
Variables (Version : Type) (pkg_parse : text → option Version)
          (version_gt : Version → Version → bool).
Variable isspace : N → bool.

(** [parse_version]. *)
Definition parse_version (ver_str : text) : option Version :=
  pkg_parse (lstrip (λ c, bool_decide (c = 118%N)) ver_str).

(** [get_latest_release]: the keys of the answer, each with its default. *)
Definition get_latest_release (repo : text) (timeout : Z) : option release :=
  let url := chars "https://api.github.com/repos/" ++ repo
             ++ chars "/releases/latest" in
  match requests_get url timeout with
  | None => None
  | Some response =>
      if bool_decide (status_code response = 200%Z) then
        match json response with
        | None => None
        | Some data =>
            Some {| tag_name := Some (default (JStr []) (tag_name data));
                    release_name := Some (default (JStr []) (release_name data));
                    body := Some (default (JStr []) (body data));
                    html_url := Some (default (JStr []) (html_url data));
                    published_at := Some (default (JStr []) (published_at data));
                    assets := Some (default [] (assets data)) |}
        end
      else None
  end.

(** [check_update].  The dictionary [latest] has its six keys and a
    [Version] is never false, so that [if not latest] and [if not
    current_ver or not latest_ver] catch [None] and nothing else. *)
Definition check_update (current_version repo : text)
  : option (bool * release) :=
  match get_latest_release repo 10 with
  | None => None
  | Some latest =>
      match default (JStr []) (tag_name latest) with
      | JStr ((_ :: _) as latest_version_str) =>
          match parse_version current_version,
                parse_version latest_version_str with
          | Some current_ver, Some latest_ver =>
              let has_update := version_gt latest_ver current_ver in
              Some (has_update, latest)
          | _, _ => None
          end
      | _ => None
      end
  end.

(** [check_and_notify], with what it prints. *)
Definition check_and_notify (current_version repo : text) (silent : bool)
  : option notice * list shown :=
  match check_update current_version repo with
  | None => (None, if silent then [] else [T "up_check_fail" []])
  | Some (true, latest_info) =>
      let message := format_update_message isspace latest_info in
      (Some {| has_update := true; current_version := current_version;
               latest_version := default (JStr []) (tag_name latest_info);
               message := message;
               url := default (JStr []) (html_url latest_info);
               release_info := latest_info |},
       if silent then []
       else [Plain (10%N :: replicate 60 61%N); message;
             Plain (replicate 60 61%N ++ [10%N])])
  | Some (false, latest_info) =>
      (Some {| has_update := false; current_version := current_version;
               latest_version := default (JStr []) (tag_name latest_info);
               message := Plain []; url := JStr [];
               release_info := latest_info |},
       if silent then [] else [T "up_latest" [JStr current_version]])
  end.
End check.

(** * Runs and their logs *)

(** [mark ph f evs]: the commands [evs] logged in state [ph], none of which
    changed the file system [f]. *)
Definition mark (ph : phase) (f : gmap string content) (evs : list event)
  : list entry :=
  (λ e, {| stage := ph; what := e; disk := f |}) <$> evs.

(** [m] with file system [f] after logging [l]. *)
Definition logged (m : machine) (f : gmap string content) (l : list entry)
  : machine :=
  {| fs := f; cwd := cwd m; dirstack := dirstack m; stage_now := stage_now m;
     log := log m ++ l |}.

(** [n] unsuccessful polls, one second apart. *)
Definition polls (p : Z) (n : nat) : list event :=
  mjoin (replicate n [Probe_pid p true; Sleep 1]).

(** Seconds slept in a list of commands. *)
Fixpoint slept (evs : list event) : nat :=
  match evs with
  | [] => 0
  | Sleep s :: evs => s + slept evs
  | _ :: evs => slept evs
  end.

Definition is_kill (e : event) : bool :=
  match e with Kill_pid _ | Kill_image _ => true | _ => false end.

#[global] Instance phase_eq_dec : EqDecision phase.
Proof. solve_decision. Defined.

(** The commands logged in protocol state [ph]. *)
Definition at_stage (ph : phase) (l : list entry) : list event :=
  what <$> filter (λ e, stage e = ph) l.

(** The run [r] stopped with [exit code], having logged [l] and left the
    file system [f]. *)
Definition ends (r : result ()) (code : Z) (l : list entry)
    (f : gmap string content) : Prop :=
  exit_code r = Some code ∧ log (final r) = l ∧ fs (final r) = f.

(** The run came to the end of the script: no command was left, and no exit
    statement had been run. *)
Definition ended {A} (r : result A) : Prop :=
  match r with Next _ _ => True | _ => False end.

(** The run [r] of a batch file is over, with the exit code [code] when an
    exit statement ended it and none when the script came to its end; it
    has logged [l] and left the file system [f]. *)
Definition finishes (r : result ()) (code : option Z) (l : list entry)
    (f : gmap string content) : Prop :=
  exit_code r = code ∧ log (final r) = l ∧ fs (final r) = f
  ∧ (code = None → ended r).

(** The run ran out of fuel. *)
Definition hangs {A} (r : result A) : Prop :=
  match r with Hang _ => True | _ => False end.

(** [g] is what a delete of [path] with outcome [d] leaves of [f]. *)
Definition removed (path : string) (d : bool) (f g : gmap string content) : Prop :=
  (g = f ∨ g = delete path f)
  ∧ (d = true → g !! path = None)
  ∧ (d = false → g = f).



(** ** The runs of the batch file *)

Section batch_shapes.
Context (v : bat_vars) (self : string).

Abbreviation cur := (current_exe_path v).
Abbreviation bak := (old_path v).

(** What the batch file has logged when it reaches [:move_retry]: [n]
    unsuccessful polls and a last poll, the forced kill when that last
    poll still found the process, and the sweep by image name. *)
Definition bat_prelude (f : gmap string content) (n : nat) (killed : bool)
  : list entry :=
  mark WaitForExit f (polls (pid v) n ++ [Probe_pid (pid v) killed])
  ++ (if killed then mark ForceKill f [Kill_pid (pid v); Sleep 1] else [])
  ++ mark ProcessExited f [Kill_image (exe_name v); Sleep 2].

(** One failed round of [:move_retry]: the stale backup is deleted (with
    outcome [b.1], leaving file system [b.2]), the move fails, and the
    script kills by image name and waits. *)
Definition failed_round (ph : phase) (b : bool * gmap string content)
  : list entry :=
  mark ph b.2 [Del bak b.1; Move cur bak false; Kill_image (exe_name v); Sleep 2].

(** [g] is [f], possibly without the stale backup. *)
Definition stale_gone (f g : gmap string content) : Prop :=
  g = f ∨ g = delete bak f.

(** The commands of the restart state on the path that launches. *)
Definition bat_restart_cmds (running : bool) : list event :=
  [Sleep 3; Start Explorer cur (exe_dir v); Sleep 3;
   Probe_image (exe_name v) running]
  ++ (if running then [] else [Start CmdStart cur (exe_dir v); Sleep 2])
  ++ [Sleep 5].

(** What the backup state can log from file system [f]: the commands, the
    file system left behind, and whether the script goes on to install. *)
Inductive bat_backup_shape (f : gmap string content)
  : list entry → gmap string content → bool → Prop :=
| bat_backup_skipped d g :
    f !! cur = None → removed bak d f g →
    bat_backup_shape f (mark Backup g [Del bak d]) g true
| bat_backup_done old bs d g :
    f !! cur = Some old → length bs ≤ 4 →
    Forall (λ b, stale_gone f b.2) bs → stale_gone f g →
    let f1 := <[bak := old]> (delete cur g) in
    bat_backup_shape f
      ((bs ≫= failed_round Backup)
       ++ mark Backup g [Del bak d] ++ mark Backup f1 [Move cur bak true])
      f1 true
| bat_backup_exhausted old bs d g :
    f !! cur = Some old → length bs = 4 →
    Forall (λ b, stale_gone f b.2) bs → stale_gone f g →
    bat_backup_shape f
      ((bs ≫= failed_round Backup)
       ++ mark Backup g [Del bak d; Move cur bak false; Pause])
      g false.

(** What the install step and everything after it can log, from a file
    system [f0] in which the current path is vacant: the exit code (none
    when the script comes to its end), the commands, and the file system
    left behind. *)
Inductive bat_install_shape (f0 : gmap string content)
  : option Z → list entry → gmap string content → Prop :=
| bat_install_failed_bare d :
    f0 !! bak = None →
    let f1 := wreck d cur f0 in
    bat_install_shape f0 (Some 1%Z)
      (mark Install f1 [Copy (new_exe_path v) cur false]
       ++ mark Rollback f1 [Pause]) f1
| bat_install_failed_restored d c :
    f0 !! bak = Some c →
    let f1 := wreck d cur f0 in
    let f2 := <[cur := c]> (delete bak f1) in
    bat_install_shape f0 (Some 1%Z)
      (mark Install f1 [Copy (new_exe_path v) cur false]
       ++ mark Rollback f2 [Move bak cur true; Pause]) f2
| bat_install_failed_stuck d :
    is_Some (f0 !! bak) →
    let f1 := wreck d cur f0 in
    bat_install_shape f0 (Some 1%Z)
      (mark Install f1 [Copy (new_exe_path v) cur false]
       ++ mark Rollback f1 [Move bak cur false; Pause]) f1
| bat_installed c d1 g1 d2 g2 running d g :
    f0 !! new_exe_path v = Some c → new_exe_path v ≠ cur →
    let f1 := <[cur := c]> f0 in
    removed (new_exe_path v) d1 f1 g1 →
    removed bak d2 g1 g2 →
    removed self d g2 g →
    g2 !! cur = Some c →
    bat_install_shape f0 None
      (mark Install f1 [Copy (new_exe_path v) cur true]
       ++ mark Cleanup g1 [Del (new_exe_path v) d1]
       ++ mark Cleanup g2 [Del bak d2]
       ++ mark Restart g2 (bat_restart_cmds running)
       ++ mark SelfDelete g [Del self d]) g.

(** Every complete run of the batch file from file system [f]. *)
Inductive bat_shape (f : gmap string content)
  : option Z → list entry → gmap string content → Prop :=
| bat_stops_at_backup n killed b g :
    n ≤ 29 → (killed = true → n = 29) →
    bat_backup_shape f b g false →
    bat_shape f (Some 1%Z) (bat_prelude f n killed ++ b) g
| bat_goes_on n killed b f1 code l g :
    n ≤ 29 → (killed = true → n = 29) →
    bat_backup_shape f b f1 true →
    bat_install_shape f1 code l g →
    bat_shape f code (bat_prelude f n killed ++ b ++ l) g.
End batch_shapes.

(** ** The runs of the shell script *)

Section shell_shapes.
Context (v : sh_vars) (self : string).

Abbreviation scur := (current_binary_path v).
Abbreviation sbak := (BACKUP_PATH v).
Abbreviation snew := (new_binary_path v).

(** What the backup step can log from file system [f]: the commands, the
    file system left behind, and whether the script goes on. *)
Inductive sh_backup_shape (f : gmap string content)
  : list entry → gmap string content → bool → Prop :=
| sh_backup_skipped :
    f !! scur = None →
    sh_backup_shape f [] f true
| sh_backup_done old :
    f !! scur = Some old →
    let f1 := <[sbak := old]> f in
    sh_backup_shape f (mark Backup f1 [Copy scur sbak true]) f1 true
| sh_backup_failed old d :
    f !! scur = Some old →
    let f1 := wreck d sbak f in
    sh_backup_shape f (mark Backup f1 [Copy scur sbak false; Pause]) f1 false.

(** From the install step to the end. *)
Definition sh_tail : script () :=
  sh_install v;; sh_cleanup v;; sh_restart v self.

(** What the install step and everything after it can log from file
    system [f0], when the script was started in directory [dir]. *)
Inductive sh_tail_shape (f0 : gmap string content) (dir : string)
  : Z → list entry → gmap string content → Prop :=
| sh_install_failed_restored d c :
    let f1 := wreck d scur f0 in
    f1 !! sbak = Some c →
    let f2 := <[scur := c]> f1 in
    sh_tail_shape f0 dir 1
      (mark Install f1 [Copy snew scur false]
       ++ mark Rollback f2 [Copy sbak scur true; Pause]) f2
| sh_install_failed_stuck d d' :
    let f1 := wreck d scur f0 in
    let f2 := wreck d' scur f1 in
    sh_tail_shape f0 dir 1
      (mark Install f1 [Copy snew scur false]
       ++ mark Rollback f2 [Copy sbak scur false; Pause]) f2
| sh_installed c d1 g1 d2 g2 d g :
    f0 !! snew = Some c → snew ≠ scur →
    let f1 := <[scur := c]> f0 in
    removed snew d1 f1 g1 →
    removed sbak d2 g1 g2 →
    removed self d g2 g →
    g2 !! scur = Some c →
    sh_tail_shape f0 dir 0
      (mark Install f1 [Copy snew scur true; Chmod_x scur]
       ++ mark Cleanup g1 [Del snew d1]
       ++ mark Cleanup g2 [Del sbak d2]
       ++ mark Restart g2 [Sleep 2; Start Nohup scur dir]
       ++ mark SelfDelete g [Del self d]) g.

(** Every run of the shell script on [fuel] units of fuel: either it is
    still waiting for the process when the fuel runs out, or it stops with
    an exit code. *)
Inductive sh_shape (f : gmap string content) (dir : string) (fuel : nat)
  : option Z → list entry → gmap string content → Prop :=
| sh_still_waiting :
    sh_shape f dir fuel None (mark WaitForExit f (polls (sh_pid v) fuel)) f
| sh_stops_at_backup n b g :
    n < fuel →
    sh_backup_shape f b g false →
    sh_shape f dir fuel (Some 1%Z)
      (mark WaitForExit f (polls (sh_pid v) n ++ [Probe_pid (sh_pid v) false])
       ++ b) g
| sh_goes_on n b f1 code l g :
    n < fuel →
    sh_backup_shape f b f1 true →
    sh_tail_shape f1 dir code l g →
    sh_shape f dir fuel (Some code)
      (mark WaitForExit f (polls (sh_pid v) n ++ [Probe_pid (sh_pid v) false])
       ++ b ++ l) g.
End shell_shapes.

(** ** Sample inputs *)


(** An environment in which the awaited process never goes away. *)
Definition busy : env :=
  {| op_ok := λ _, true; op_damage := λ _, Untouched; ps_found := λ _, true |}.


(** An environment in which file commands succeed except the one at
    position [n]. *)
Definition fails_at (n : nat) : env :=
  {| op_ok := λ i, negb (bool_decide (i = n)); op_damage := λ _, Removed;
     ps_found := λ _, false |}.

(** An environment in which file commands succeed up to position [n] and
    fail from there on, a failed copy leaving a truncated file, as when the
    disk fills up. *)
Definition disk_full_from (n : nat) : env :=
  {| op_ok := λ i, bool_decide (i < n); op_damage := λ _, Garbled (Bytes "trunc");
     ps_found := λ _, false |}.

Definition win_vars : bat_vars :=
  {| pid := 4242; exe_name := "tool.exe"; exe_dir := "C:/app";
     current_exe_path := "C:/app/tool.exe"; new_exe_path := "C:/dl/tool.new" |}.

Definition win_script : string := "C:/tmp/fxdownloader_update.bat".

Definition win_disk : gmap string content :=
  {[ "C:/app/tool.exe" := Bytes "old"; "C:/dl/tool.new" := Bytes "new";
     win_script := BatFile win_vars ]}.

Definition unix_vars : sh_vars :=
  {| sh_pid := 4242; current_binary_path := "/app/tool";
     new_binary_path := "/tmp/tool.new" |}.

Definition unix_script : string := "/tmp/fxdownloader_update.sh".

Definition unix_disk : gmap string content :=
  {[ "/app/tool" := Bytes "old"; "/tmp/tool.new" := Bytes "new";
     unix_script := ShFile unix_vars ]}.

(** A disk on which the application is not installed at its path. *)
Definition win_bare_disk : gmap string content :=
  {[ "C:/dl/tool.new" := Bytes "new"; win_script := BatFile win_vars ]}.


(** Stand-ins for [os.path.basename], [os.path.dirname], [os.path.join]. *)
Definition slash_join (dir name : string) : string := dir +:+ "/" +:+ name.

Definition win_world : world :=
  {| frozen := true; executable := "C:/app/tool.exe"; platform := "win32";
     getpid := 4242; gettempdir := "C:/tmp";
     files := {[ "C:/app/tool.exe" := Bytes "old"; "C:/dl/tool.new" := Bytes "new" ]};
     writable := λ _, true; launchable := λ _, true;
     children := []; calls := [] |}.

Definition unix_world : world :=
  {| frozen := true; executable := "/app/tool"; platform := "linux";
     getpid := 4242; gettempdir := "/tmp";
     files := {[ "/app/tool" := Bytes "old"; "/tmp/tool.new" := Bytes "new" ]};
     writable := λ _, true; launchable := λ prog, bool_decide (prog = "xterm");
     children := []; calls := [] |}.

(** The same worlds running from source. *)
Definition thawed (w : world) : world :=
  {| frozen := false; executable := executable w; platform := platform w;
     getpid := getpid w; gettempdir := gettempdir w; files := files w;
     writable := writable w; launchable := launchable w;
     children := children w; calls := calls w |}.

(** A world in which no program can be started. *)
Definition no_launcher (w : world) : world :=
  {| frozen := frozen w; executable := executable w; platform := platform w;
     getpid := getpid w; gettempdir := gettempdir w; files := files w;
     writable := writable w; launchable := λ _, false;
     children := children w; calls := calls w |}.



(** [str.lower] on the letters A to Z, which is what it does to text
    without other cased letters. *)
Definition lower_ascii (s : text) : text :=
  (λ c, if bool_decide (65 ≤ c ≤ 90)%N then (c + 32)%N else c) <$> s.

(** White space as [str.strip] sees it among the first 128 characters. *)
Definition ascii_space (c : N) : bool :=
  bool_decide (c ∈ [9; 10; 11; 12; 13; 28; 29; 30; 31; 32]%N).

(** A stand-in for the size in megabytes, to one decimal by truncation. *)
Definition mb_digits (size : Z) : text :=
  let tenths := (size * 10 / 1048576)%Z in
  [Z.to_N (48 + (tenths / 10) `mod` 10); 46%N; Z.to_N (48 + tenths `mod` 10)].

Definition ship (name : string) (size : Z) : asset :=
  {| asset_name := Some (chars name); asset_size := Some size;
     browser_download_url := Some (chars "https://example.org/" ++ chars name) |}.

(** A release with builds for three platforms. *)
Definition sample_release : release :=
  {| tag_name := Some (JStr (chars "v2"));
     release_name := Some (JStr (chars "Second"));
     body := Some (JStr (chars "## Changes  "));
     html_url := Some (JStr (chars "https://example.org/v2"));
     published_at := None;
     assets := Some [ ship "FX.exe" 3145728; ship "FX_debug.exe" 4194304;
                      ship "FX_Standalone.exe" 9437184;
                      ship "fx-linux-debug" 5242880; ship "fx-linux" 2097152;
                      ship "fx-macos" 2097152;
                      {| asset_name := None; asset_size := None;
                         browser_download_url := None |} ] |}.

(** A server that answers every request with [sample_release], and one
    that cannot be reached. *)
Definition sample_get (url : text) (timeout : Z) : option response :=
  Some {| status_code := 200; json := Some sample_release |}.

Definition offline_get (url : text) (timeout : Z) : option response := None.

(** Versions of one digit. *)
Definition digit_parse (s : text) : option N :=
  match s with
  | [c] => if bool_decide (48 ≤ c ≤ 57)%N then Some (c - 48)%N else None
  | _ => None
  end.

Definition digit_gt (a b : N) : bool := bool_decide (b < a)%N.

(** An Android phone running Termux. *)
Definition termux_environ : gmap string string :=
  {[ "PREFIX" := "/data/data/com.termux/files/usr" ]}.

(** * Lemmas on runs *)

Ltac unfold_lets := repeat match goal with x := _ |- _ => subst x end.

(** Membership in explicit lists. *)
Ltac list_mem :=
  unfold not; intros;
  repeat match goal with
    | H : _ ∈ _ :: _ |- _ => apply elem_of_cons in H as [?|H]
    | H : _ ∈ [] |- _ => by apply elem_of_nil in H
    | H : _ ∈ _ ++ _ |- _ => apply elem_of_app in H as [H|H]
    end;
  subst; cbn; try done; try discriminate;
  rewrite ?elem_of_cons; auto 10.

Lemma logged_exec m e f g l :
  logged (exec e f m) g l
  = logged m g ({| stage := stage_now m; what := e; disk := f |} :: l).
Proof. unfold logged, exec. cbn. by rewrite <- (assoc_L (++)). Qed.

Lemma exec_logged m e f : exec e f m = logged m f (mark (stage_now m) f [e]).
Proof. reflexivity. Qed.

Lemma logged_logged m f l g k : logged (logged m f l) g k = logged m g (l ++ k).
Proof. unfold logged. cbn. by rewrite (assoc_L (++)). Qed.

Ltac norm_machine :=
  repeat first [rewrite exec_logged | rewrite logged_logged];
  cbn [stage_now logged fs cwd dirstack].

Ltac norm_machine_in H :=
  repeat first [rewrite exec_logged in H | rewrite logged_logged in H];
  cbn [stage_now logged fs cwd dirstack] in H.

Lemma polls_S p n : polls p (S n) = Probe_pid p true :: Sleep 1 :: polls p n.
Proof. reflexivity. Qed.

Lemma slept_polls p n : slept (polls p n) = n.
Proof. induction n as [|n IH]; [done|]. rewrite polls_S. cbn [slept]. by rewrite IH. Qed.

Lemma append_neq (s t : string) : t ≠ EmptyString → s +:+ t ≠ s.
Proof.
  intros Ht. induction s as [|a s IH]; cbn; [done|].
  intros [= H]. by apply IH.
Qed.

Lemma old_path_neq v : old_path v ≠ current_exe_path v.
Proof. by apply append_neq. Qed.

Lemma BACKUP_PATH_neq v : BACKUP_PATH v ≠ current_binary_path v.
Proof. by apply append_neq. Qed.

(** The possible results of the three file commands. *)
Lemma del_run path E m :
  ∃ d g, del path E m = Next d (exec (Del path d) g m)
         ∧ removed path d (fs m) g.
Proof.
  unfold del, removed. destruct (fs m !! path) eqn:Hp; [destruct (op_ok E (now m))|].
  - eexists true, _. split; [done|]. split_and!; [by right| |done].
    intros _. apply lookup_delete_eq.
  - eexists false, _. split; [done|]. split_and!; [by left|done|done].
  - eexists true, _. split; [done|]. split_and!; [by left|done|done].
Qed.

Lemma move_run src dst E m :
  (∃ c, fs m !! src = Some c
        ∧ move src dst E m
          = Next true (exec (Move src dst true) (<[dst := c]> (delete src (fs m))) m))
  ∨ move src dst E m = Next false (exec (Move src dst false) (fs m) m).
Proof.
  unfold move. destruct (fs m !! src); [destruct (op_ok E (now m))|]; eauto.
Qed.

Lemma copy_run src dst E m :
  (∃ c, fs m !! src = Some c ∧ src ≠ dst
        ∧ copy src dst E m
          = Next true (exec (Copy src dst true) (<[dst := c]> (fs m)) m))
  ∨ (∃ d, copy src dst E m
          = Next false (exec (Copy src dst false) (wreck d dst (fs m)) m)).
Proof.
  unfold copy. destruct (fs m !! src); [|right; by exists Untouched].
  case_bool_decide; [right; by exists Untouched|].
  destruct (op_ok E (now m)); eauto.
Qed.

Lemma wreck_other d dst f p : p ≠ dst → wreck d dst f !! p = f !! p.
Proof.
  intros Hp. destruct d; cbn; [done| |].
  - by rewrite lookup_delete_ne.
  - by rewrite lookup_insert_ne.
Qed.

Lemma removed_other path d f g p : removed path d f g → p ≠ path → g !! p = f !! p.
Proof. intros [[->| ->] _] Hp; [done|]. by rewrite lookup_delete_ne. Qed.

Section batch_runs.
Context (v : bat_vars) (self : string) (E : env).

Abbreviation cur := (current_exe_path v).
Abbreviation bak := (old_path v).

Lemma stale_gone_trans f g h :
  stale_gone v f g → stale_gone v g h → stale_gone v f h.
Proof.
  unfold stale_gone. intros [->| ->] [->| ->]; auto.
  right. apply map_eq. intros p. destruct (decide (p = bak)) as [->|];
    by rewrite ?lookup_delete_eq, ?lookup_delete_ne.
Qed.

Lemma stale_gone_lookup f g p : stale_gone v f g → p ≠ bak → g !! p = f !! p.
Proof. intros [->| ->] Hp; [done|]. by rewrite lookup_delete_ne. Qed.

Lemma waitloop_run fuel rest count m :
  (0 ≤ count < 30)%Z → (30 - count ≤ Z.of_nat rest)%Z →
  ∃ n, (Z.of_nat n ≤ 29 - count)%Z ∧
    (waitloop v self fuel rest count E m
       = process_exited v self fuel E
           (logged m (fs m)
              (mark (stage_now m) (fs m)
                 (polls (pid v) n ++ [Probe_pid (pid v) false])))
     ∨ (Z.of_nat n = 29 - count)%Z ∧
       waitloop v self fuel rest count E m
       = force_kill v self fuel E
           (logged m (fs m)
              (mark (stage_now m) (fs m)
                 (polls (pid v) n ++ [Probe_pid (pid v) true])))).
Proof.
  revert count m. induction rest as [|rest IH]; intros count m Hc Hr; [lia|].
  cbn [waitloop]. unfold mbind, script_bind, probe_pid.
  destruct (ps_found E (now m)) eqn:Hp; cbn [negb].
  - destruct (Z.geb_spec (count + 1) 30) as [Hge|Hlt].
    + exists 0. split; [lia|]. right. split; [lia|]. reflexivity.
    + destruct (IH (count + 1)%Z
                  (exec (Sleep 1) (fs m) (exec (Probe_pid (pid v) true) (fs m) m)))
        as (n & Hn & Hrun); [lia|lia|].
      exists (S n). split; [lia|].
      rewrite !logged_exec in Hrun. cbn [exec stage_now fs] in Hrun.
      rewrite polls_S. unfold ping_n, sleep. cbn [Nat.sub exec fs].
      destruct Hrun as [Hrun | [Hn' Hrun]]; [left | right; split; [lia|]];
        rewrite Hrun; reflexivity.
  - exists 0. split; [lia|]. left. reflexivity.
Qed.

Lemma bat_content_run fuel f dir :
  30 ≤ fuel →
  ∃ n killed,
    n ≤ 29 ∧ (killed = true → n = 29)
    ∧ bat_content v self fuel E (boot f dir)
      = move_retry v self fuel 0 E
          {| fs := f; cwd := dir; dirstack := []; stage_now := Backup;
             log := bat_prelude v f n killed |}.
Proof.
  intros Hfuel. unfold bat_content, mbind, script_bind. cbn [enter boot].
  match goal with |- context [waitloop _ _ _ _ _ _ ?M] =>
    destruct (waitloop_run fuel fuel 0 M) as (n & Hn & [Hrun|[Hn' Hrun]])
  end; [lia|lia| |]; rewrite Hrun.
  - exists n, false. split_and!; [lia|done|].
    unfold process_exited, mbind, script_bind, enter, taskkill_image, ping_n, sleep.
    cbn. do 2 f_equal. unfold bat_prelude. cbn [app].
    rewrite <- ?(assoc_L (++)). reflexivity.
  - exists n, true. split_and!; [lia|lia|].
    unfold force_kill, process_exited, mbind, script_bind, enter, taskkill_pid,
      taskkill_image, ping_n, sleep.
    cbn. do 2 f_equal. unfold bat_prelude. cbn [app].
    rewrite <- ?(assoc_L (++)). reflexivity.
Qed.

(** [:move_retry] when the current executable is there: some failed
    rounds, then either the move succeeds and the script goes on to
    install, or the fifth attempt fails and the script stops. *)
Lemma move_retry_run fuel retry m old :
  (0 ≤ retry < 5)%Z → (5 - retry ≤ Z.of_nat fuel)%Z →
  fs m !! cur = Some old →
  ∃ bs d g,
    (Z.of_nat (length bs) ≤ 4 - retry)%Z
    ∧ Forall (λ b, stale_gone v (fs m) b.2) bs
    ∧ stale_gone v (fs m) g
    ∧ (move_retry v self fuel retry E m
         = bat_install v self E
             (logged m (<[bak := old]> (delete cur g))
                ((bs ≫= failed_round v (stage_now m))
                 ++ mark (stage_now m) g [Del bak d]
                 ++ mark (stage_now m) (<[bak := old]> (delete cur g))
                      [Move cur bak true]))
       ∨ (Z.of_nat (length bs) = 4 - retry)%Z
         ∧ move_retry v self fuel retry E m
           = Exit 1
               (logged m g
                  ((bs ≫= failed_round v (stage_now m))
                   ++ mark (stage_now m) g
                        [Del bak d; Move cur bak false; Pause]))).
Proof.
  revert retry m. induction fuel as [|fuel IH]; intros retry m Hr Hf Hcur; [lia|].
  remember (move_retry v self (S fuel) retry E m) as R eqn:HR.
  cbn [move_retry] in HR. unfold mbind, script_bind in HR.
  destruct (del_run bak E m) as (d & g & Hd & [Hg _]). rewrite Hd in HR.
  assert (Hgcur : g !! cur = Some old).
  { rewrite (stale_gone_lookup (fs m)); auto using old_path_neq. }
  unfold exist in HR. cbn [fs exec] in HR. rewrite Hgcur in HR.
  rewrite bool_decide_eq_true_2 in HR by eauto.
  destruct (move_run cur bak E (exec (Del bak d) g m)) as [(c & Hc & Hm)|Hm];
    rewrite Hm in HR; cbn [negb] in HR.
  - cbn [fs exec] in Hc. assert (c = old) as -> by congruence.
    exists [], d, g. split_and!; [cbn; lia|constructor|done|].
    left. rewrite HR. norm_machine. reflexivity.
  - destruct (Z.ltb_spec (retry + 1) 5) as [Hlt|Hge].
    + unfold taskkill_image, ping_n, sleep in HR. cbn [Nat.sub exec fs] in HR.
      norm_machine_in HR.
      match type of HR with _ = move_retry _ _ _ _ _ ?M =>
        destruct (IH (retry + 1)%Z M) as (bs & d' & g' & Hlen & Hbs & Hg' & Hrun)
      end; [lia|lia|done|].
      norm_machine_in Hrun. cbn [fs logged] in Hbs, Hg'.
      exists ((d, g) :: bs), d', g'. split_and!.
      * cbn [length]. lia.
      * constructor; [done|].
        eapply Forall_impl; [exact Hbs|]. intros b Hb. by eapply stale_gone_trans.
      * by eapply stale_gone_trans.
      * rewrite HR.
        destruct Hrun as [Hrun|[Hlen' Hrun]]; [left|right; split; [cbn [length]; lia|]];
          rewrite Hrun; cbn [mbind list_bind mjoin]; unfold failed_round at 2;
          cbn [fst snd mark fmap list_fmap app]; rewrite <- ?(assoc_L (++));
          reflexivity.
    + exists [], d, g. split_and!; [cbn; lia|constructor|done|].
      right. split; [cbn; lia|]. rewrite HR.
      unfold pause, exit_script. norm_machine. reflexivity.
Qed.

(** [:move_retry] when there is no current executable: only the stale
    backup is deleted. *)
Lemma move_retry_absent fuel retry m :
  1 ≤ fuel → fs m !! cur = None →
  ∃ d g, removed bak d (fs m) g
    ∧ move_retry v self fuel retry E m
      = bat_install v self E (logged m g (mark (stage_now m) g [Del bak d])).
Proof.
  intros Hfuel Hcur. destruct fuel as [|fuel]; [lia|].
  cbn [move_retry]. unfold mbind, script_bind.
  destruct (del_run bak E m) as (d & g & -> & Hg).
  exists d, g. split; [done|].
  unfold exist. cbn [fs exec].
  rewrite (removed_other bak d (fs m)), Hcur by auto using old_path_neq.
  rewrite bool_decide_eq_false_2 by (by intros [??]).
  reflexivity.
Qed.

Lemma bat_restart_run m :
  (fs m !! cur = None
   ∧ finishes (bat_restart v self E m) (Some 1%Z)
       (log m ++ mark Restart (fs m) [Sleep 3; Pause]) (fs m))
  ∨ (is_Some (fs m !! cur)
     ∧ ∃ running d g,
         removed self d (fs m) g
         ∧ finishes (bat_restart v self E m) None
             (log m ++ mark Restart (fs m) (bat_restart_cmds v running)
              ++ mark SelfDelete g [Del self d]) g).
Proof.
  unfold bat_restart, mbind, script_bind, enter, ping_n, sleep, cd, exist,
    pushd, popd, start, probe_image, when, pause, exit_script, mret, script_ret.
  cbn -[del]. destruct (fs m !! cur) as [c|] eqn:Hcur.
  - right. split; [eauto|]. rewrite bool_decide_eq_true_2 by eauto. cbn -[del].
    match goal with |- context [ps_found E ?n] => destruct (ps_found E n) eqn:Hp end;
      cbn -[del];
      match goal with |- context [del ?p ?E ?M] =>
        destruct (del_run p E M) as (d & g & -> & Hg) end;
      cbn in Hg |- *;
      [exists true, d, g | exists false, d, g]; (split; [done|]);
      unfold finishes; cbn; (split_and!; [done| |done|done]);
      rewrite <- ?(assoc_L (++)); reflexivity.
  - left. split; [done|]. rewrite bool_decide_eq_false_2 by (by intros [??]).
    unfold finishes. cbn. split_and!; [done| |done|done].
    rewrite <- ?(assoc_L (++)). reflexivity.
Qed.

Lemma bat_install_run m :
  fs m !! cur = None →
  ∃ code l g,
    bat_install_shape v self (fs m) code l g
    ∧ finishes (bat_install v self E m) code (log m ++ l) g.
Proof.
  intros Hcur. pose proof (old_path_neq v) as Hne.
  unfold bat_install, mbind, script_bind, enter, when, pause, exit_script,
    mret, script_ret.
  match goal with |- context [copy ?a ?b E ?M] =>
    destruct (copy_run a b E M) as [(c & Hc & Hnew & Hrun)|(d & Hrun)]
  end; rewrite !Hrun; cbn -[del move bat_restart wreck].
  - cbn [fs] in Hc.
    match goal with |- context [del ?p E ?M] =>
      destruct (del_run p E M) as (d1 & g1 & Hd1 & Hg1) end.
    rewrite !Hd1. cbn -[del move bat_restart wreck] in Hg1 |- *.
    match goal with |- context [del ?p E ?M] =>
      destruct (del_run p E M) as (d2 & g2 & Hd2 & Hg2) end.
    rewrite !Hd2. cbn -[del move bat_restart wreck] in Hg2 |- *.
    assert (Hg2cur : g2 !! cur = Some c).
    { rewrite (removed_other _ _ _ _ _ Hg2), (removed_other _ _ _ _ _ Hg1) by done.
      apply lookup_insert_eq. }
    match goal with |- context [bat_restart v self E ?M] =>
      destruct (bat_restart_run M) as [[Habs _]|(_ & running & d & g & Hg & Hend)]
    end; cbn [fs exec] in *; [congruence|].
    eexists None, _, g. split; [by eapply (bat_installed _ _ _ c d1 g1 d2 g2 running d g)|].
    destruct Hend as (Hcode & Hlog & Hfs & Hended). split_and!; [done| |done|done].
    rewrite Hlog. cbn [log exec stage_now]. rewrite <- !(assoc_L (++)). reflexivity.
  - unfold exist. cbn -[del move bat_restart wreck].
    rewrite wreck_other by done.
    destruct (fs m !! bak) as [c|] eqn:Hbak.
    + rewrite bool_decide_eq_true_2 by eauto.
      match goal with |- context [move ?a ?b E ?M] =>
        destruct (move_run a b E M) as [(c' & Hc' & Hmv)|Hmv]
      end; rewrite !Hmv; cbn -[wreck] in *.
      * rewrite wreck_other in Hc' by done.
        assert (c' = c) as -> by congruence.
        eexists (Some 1%Z), _, _. split; [by eapply (bat_install_failed_restored _ _ _ d c)|].
        unfold finishes. cbn -[wreck].
        split_and!; [done| |done|done]. rewrite <- !(assoc_L (++)). reflexivity.
      * eexists (Some 1%Z), _, _. split; [by eapply (bat_install_failed_stuck _ _ _ d)|].
        unfold finishes. cbn -[wreck].
        split_and!; [done| |done|done]. rewrite <- !(assoc_L (++)). reflexivity.
    + rewrite bool_decide_eq_false_2 by (by intros [??]).
      eexists (Some 1%Z), _, _. split; [by eapply (bat_install_failed_bare _ _ _ d)|].
      unfold finishes. cbn -[wreck].
      split_and!; [done| |done|done]. rewrite <- !(assoc_L (++)). reflexivity.
Qed.

Lemma bat_backup_vacates f b f1 :
  bat_backup_shape v f b f1 true → f1 !! cur = None.
Proof.
  pose proof (old_path_neq v). inversion 1; subst.
  - by rewrite (removed_other bak d f).
  - unfold_lets. by rewrite lookup_insert_ne, lookup_delete_eq.
Qed.

(** Every run of the batch file on enough fuel is one of the runs
    described by [bat_shape]; in particular it stops. *)
Lemma bat_content_shape fuel f dir :
  30 ≤ fuel →
  ∃ code l g,
    bat_shape v self f code l g
    ∧ finishes (bat_content v self fuel E (boot f dir)) code l g.
Proof.
  intros Hfuel.
  destruct (bat_content_run fuel f dir Hfuel) as (n & killed & Hn & Hk & ->).
  set (m := {| fs := f; cwd := dir; dirstack := []; stage_now := Backup;
               log := bat_prelude v f n killed |}).
  assert (∃ b f1 go, bat_backup_shape v f b f1 go
            ∧ if go
              then move_retry v self fuel 0 E m
                   = bat_install v self E (logged m f1 b)
              else move_retry v self fuel 0 E m = Exit 1 (logged m f1 b))
    as (b & f1 & go & Hb & Hrun).
  { destruct (f !! cur) as [old|] eqn:Hcur.
    - destruct (move_retry_run fuel 0 m old) as (bs & d & g & Hlen & Hbs & Hg & Hrun);
        [lia|lia|done|].
      destruct Hrun as [Hrun|[Hlen' Hrun]].
      + eexists _, _, true. split; [|exact Hrun].
        apply (bat_backup_done v f old bs d g); [done|lia|done|done].
      + eexists _, _, false. split; [|exact Hrun].
        apply (bat_backup_exhausted v f old bs d g); [done|lia|done|done].
    - destruct (move_retry_absent fuel 0 m) as (d & g & Hg & Hrun); [lia|done|].
      eexists _, _, true. split; [|exact Hrun]. by apply (bat_backup_skipped v f d g). }
  destruct go.
  - rewrite Hrun.
    destruct (bat_install_run (logged m f1 b)) as (code & l & g & Hl & Hend).
    { cbn [fs logged]. by eapply bat_backup_vacates. }
    exists code, (bat_prelude v f n killed ++ b ++ l), g. split.
    + by eapply bat_goes_on.
    + destruct Hend as (? & Hlog & ? & ?). split_and!; [done| |done|done].
      rewrite Hlog. cbn. by rewrite (assoc_L (++)).
  - rewrite Hrun. exists (Some 1%Z), (bat_prelude v f n killed ++ b), f1. split.
    + by eapply bat_stops_at_backup.
    + done.
Qed.
End batch_runs.

Section shell_runs.
Context (v : sh_vars) (self : string) (E : env).

Abbreviation scur := (current_binary_path v).
Abbreviation sbak := (BACKUP_PATH v).
Abbreviation snew := (new_binary_path v).

(** The wait loop either sees the process gone after [n] unsuccessful
    polls, or is still polling when the fuel runs out. *)
Lemma sh_wait_run fuel m :
  ∃ n,
    (n < fuel
     ∧ sh_wait v fuel E m
       = Next () (logged m (fs m)
                    (mark (stage_now m) (fs m)
                       (polls (sh_pid v) n ++ [Probe_pid (sh_pid v) false]))))
    ∨ (n = fuel
       ∧ sh_wait v fuel E m
         = Hang (logged m (fs m)
                   (mark (stage_now m) (fs m) (polls (sh_pid v) n)))).
Proof.
  revert m. induction fuel as [|fuel IH]; intros m.
  - exists 0. right. split; [done|]. cbn. unfold out_of_fuel, logged.
    destruct m; cbn. by rewrite (right_id_L [] (++)).
  - cbn [sh_wait]. unfold mbind, script_bind, probe_pid.
    destruct (ps_found E (now m)) eqn:Hp.
    + unfold sleep.
      match goal with |- context [sh_wait _ _ _ ?M] =>
        destruct (IH M) as (n & Hrun) end.
      norm_machine_in Hrun. norm_machine.
      exists (S n). rewrite polls_S.
      destruct Hrun as [[Hn Hrun]|[Hn Hrun]]; [left|right]; (split; [lia|]);
        rewrite Hrun; cbn [mark fmap list_fmap app];
        rewrite <- ?(assoc_L (++)); reflexivity.
    + exists 0. left. split; [lia|]. reflexivity.
Qed.

Lemma sh_backup_run m :
  ∃ b f1 go,
    sh_backup_shape v (fs m) b f1 go
    ∧ let m1 := {| fs := f1; cwd := cwd m; dirstack := dirstack m;
                   stage_now := Backup; log := log m ++ b |} in
      sh_backup v E m = if go then Next () m1 else Exit 1 m1.
Proof.
  unfold sh_backup, mbind, script_bind, enter, exist, when, pause, exit_script,
    mret, script_ret.
  cbn -[copy wreck]. destruct (fs m !! scur) as [old|] eqn:Hcur.
  - rewrite bool_decide_eq_true_2 by eauto.
    match goal with |- context [copy ?a ?b E ?M] =>
      destruct (copy_run a b E M) as [(c & Hc & _ & Hrun)|(d & Hrun)]
    end; rewrite !Hrun; cbn -[wreck] in *.
    + assert (c = old) as -> by congruence.
      eexists _, _, true. split; [by apply (sh_backup_done _ _ old)|]. reflexivity.
    + eexists _, _, false. split; [by apply (sh_backup_failed _ _ old d)|].
      unfold exec. cbn -[wreck]. rewrite <- ?(assoc_L (++)). reflexivity.
  - rewrite bool_decide_eq_false_2 by (by intros [??]).
    eexists _, _, true. split; [by apply sh_backup_skipped|].
    cbn. by rewrite (right_id_L [] (++)).
Qed.

Lemma sh_tail_run m :
  ∃ code l g,
    sh_tail_shape v self (fs m) (cwd m) code l g
    ∧ ends (sh_tail v self E m) code (log m ++ l) g.
Proof.
  pose proof (BACKUP_PATH_neq v) as Hne.
  unfold sh_tail, sh_install, sh_cleanup, sh_restart, mbind, script_bind, enter,
    when, pause, exit_script, chmod_x, sleep, start, mret, script_ret.
  match goal with |- context [copy ?a ?b E ?M] =>
    destruct (copy_run a b E M) as [(c & Hc & Hnew & Hrun)|(d & Hrun)]
  end; rewrite !Hrun; cbn -[del copy wreck].
  - cbn [fs] in Hc.
    match goal with |- context [del ?p E ?M] =>
      destruct (del_run p E M) as (d1 & g1 & Hd1 & Hg1) end.
    rewrite !Hd1. cbn -[del copy wreck] in Hg1 |- *.
    match goal with |- context [del ?p E ?M] =>
      destruct (del_run p E M) as (d2 & g2 & Hd2 & Hg2) end.
    rewrite !Hd2. cbn -[del copy wreck] in Hg2 |- *.
    match goal with |- context [del ?p E ?M] =>
      destruct (del_run p E M) as (d & g & Hd & Hg) end.
    rewrite !Hd. cbn -[del copy wreck] in Hg |- *.
    assert (Hg2cur : g2 !! scur = Some c).
    { rewrite (removed_other _ _ _ _ _ Hg2), (removed_other _ _ _ _ _ Hg1) by done.
      apply lookup_insert_eq. }
    eexists 0%Z, _, g.
    split; [by eapply (sh_installed _ _ _ _ c d1 g1 d2 g2 d g)|].
    unfold ends. cbn. split_and!; [done| |done].
    rewrite <- !(assoc_L (++)). reflexivity.
  - match goal with |- context [copy ?a ?b E ?M] =>
      destruct (copy_run a b E M) as [(c & Hc & _ & Hcp)|(d' & Hcp)]
    end; rewrite !Hcp; cbn -[wreck] in *.
    + eexists 1%Z, _, _.
      split; [by eapply (sh_install_failed_restored _ _ _ _ d c)|].
      unfold ends. cbn -[wreck].
      split_and!; [done| |done]. rewrite <- !(assoc_L (++)). reflexivity.
    + eexists 1%Z, _, _.
      split; [by eapply (sh_install_failed_stuck _ _ _ _ d d')|].
      unfold ends. cbn -[wreck].
      split_and!; [done| |done]. rewrite <- !(assoc_L (++)). reflexivity.
Qed.

(** Every run of the shell script is one of the runs described by
    [sh_shape]. *)
Lemma shell_content_shape fuel f dir :
  ∃ code l g,
    sh_shape v self f dir fuel code l g
    ∧ exit_code (shell_content v self fuel E (boot f dir)) = code
    ∧ log (final (shell_content v self fuel E (boot f dir))) = l
    ∧ fs (final (shell_content v self fuel E (boot f dir))) = g
    ∧ (code = None → hangs (shell_content v self fuel E (boot f dir))).
Proof.
  remember (shell_content v self fuel E (boot f dir)) as r eqn:Hr.
  change (shell_content v self fuel)
    with (enter WaitForExit;; sh_wait v fuel;; sh_backup v;; sh_tail v self) in Hr.
  unfold mbind, script_bind in Hr. cbn [enter boot fs cwd dirstack log] in Hr.
  match type of Hr with context [sh_wait v fuel E ?M] =>
    destruct (sh_wait_run fuel M) as (n & [[Hn Hrun]|[Hn Hrun]])
  end; rewrite Hrun in Hr; cbn [fs cwd dirstack stage_now log logged app] in Hr.
  - match type of Hr with context [sh_backup v E ?M] =>
      destruct (sh_backup_run M) as (b & f1 & go & Hb & Hbrun)
    end. cbn [fs cwd dirstack stage_now log logged app] in Hb, Hbrun.
    rewrite Hbrun in Hr. destruct go.
    + match type of Hr with context [sh_tail v self E ?M] =>
        destruct (sh_tail_run M) as (code & l & g & Hl & Hcode & Hlog & Hfs)
      end. cbn [fs cwd dirstack stage_now log logged app] in Hl, Hlog.
      rewrite <- Hr in Hcode, Hlog, Hfs.
      eexists (Some code), _, g. split; [by eapply sh_goes_on|].
      split_and!; [done| |done|done].
      rewrite Hlog. by rewrite (assoc_L (++)).
    + eexists (Some 1%Z), _, f1. split; [by eapply sh_stops_at_backup|].
      by rewrite Hr.
  - subst n. eexists None, _, f. split; [apply sh_still_waiting|]. by rewrite Hr.
Qed.
End shell_runs.

(** * The Python side *)

Section python_facts.
Variables (basename dirname : string → string) (join : string → string → string).

(** C9.  Called from a process that is not a packaged build, both
    functions return [False] having done nothing but print the
    not-a-packaged-build message: [os.path.exists] is never asked about the
    new binary, so the missing-file message cannot be the one reported,
    whether or not the new binary exists. *)
Theorem frozen_check_comes_first new_path current w :
  frozen w = false →
  apply_windows_update basename dirname join new_path current w
    = (false, called (Sys_print "up_not_frozen") w)
  ∧ apply_unix_update join new_path current w
    = (false, called (Sys_print "up_not_frozen_linux") w)
  ∧ (Sys_exists new_path
      ∉ drop (length (calls w))
          (calls (apply_windows_update basename dirname join new_path current w).2))
  ∧ (Sys_exists new_path
      ∉ drop (length (calls w))
          (calls (apply_unix_update join new_path current w).2)).
Proof.
  intros Hf. unfold apply_windows_update, apply_unix_update. rewrite Hf. cbn.
  rewrite !drop_app_length. split_and!; [done|done| |];
    intros [Heq|Hin]%elem_of_cons; (discriminate || by apply elem_of_nil in Hin).
Qed.

(** C6.  In a packaged build, when the new binary does not exist, both
    functions return [False] after the existence check and the
    missing-file message alone: no script is written, no process is
    started, no file changes. *)
Theorem missing_artifact_stops_apply new_path current w :
  frozen w = true →
  files w !! new_path = None →
  let win := apply_windows_update basename dirname join new_path current w in
  let unix := apply_unix_update join new_path current w in
  win = (false, called (Sys_print "up_new_missing")
                  (called (Sys_exists new_path) w))
  ∧ unix = (false, called (Sys_print "up_new_missing_linux")
                     (called (Sys_exists new_path) w))
  ∧ files win.2 = files w ∧ children win.2 = children w
  ∧ files unix.2 = files w ∧ children unix.2 = children w.
Proof.
  intros Hf Hnew. unfold apply_windows_update, apply_unix_update, path_exists.
  rewrite Hf. cbn. rewrite Hnew.
  rewrite bool_decide_eq_false_2 by (by intros [??]). cbn. done.
Qed.

(** What a successful [apply_windows_update] leaves behind. *)
Lemma apply_windows_update_started new_path current w w1 :
  apply_windows_update basename dirname join new_path current w = (true, w1) →
  let bat_path := join (gettempdir w) "fxdownloader_update.bat" in
  ∃ v,
    files w1 = <[bat_path := BatFile v]> (files w)
    ∧ new_exe_path v = new_path
    ∧ children w1
      = children w ++ [ {| argv := ["cmd.exe"; "/c"; bat_path]; new_console := true;
                           new_session := false;
                           child_cwd := Some (gettempdir w) |} ]
    ∧ gettempdir w1 = gettempdir w.
Proof.
  unfold apply_windows_update, write_file, Popen.
  destruct (frozen w); cbn; [|discriminate].
  destruct (path_exists _ _); cbn; [|discriminate].
  destruct (writable w _); cbn; [|discriminate].
  case_bool_decide; cbn; [|discriminate].
  destruct (launchable w _); cbn; [|discriminate].
  intros [= <-]. cbn. eexists. split_and!; reflexivity.
Qed.

Lemma try_terminals_children terminals w w1 launched :
  try_terminals terminals w = (w1, launched) →
  files w1 = files w ∧ gettempdir w1 = gettempdir w
  ∧ launchable w1 = launchable w
  ∧ if launched then ∃ c, children w1 = children w ++ [c]
    else children w1 = children w.
Proof.
  revert w. induction terminals as [|t ts IH]; intros w; cbn.
  - by intros [= <- <-].
  - unfold Popen. cbn. destruct t as [|prog args].
    + intros H. by destruct (IH _ H) as (? & ? & ? & ?).
    + destruct (launchable w prog).
      * intros [= <- <-]. cbn. eauto.
      * intros H. by destruct (IH _ H) as (? & ? & ? & ?).
Qed.

(** What a successful [apply_unix_update] leaves behind. *)
Lemma apply_unix_update_started new_path current w w1 :
  apply_unix_update join new_path current w = (true, w1) →
  let script_path := join (gettempdir w) "fxdownloader_update.sh" in
  ∃ v c,
    files w1 = <[script_path := ShFile v]> (files w)
    ∧ new_binary_path v = new_path
    ∧ children w1 = children w ++ [c]
    ∧ gettempdir w1 = gettempdir w.
Proof.
  unfold apply_unix_update, write_file.
  destruct (frozen w); cbn -[try_terminals]; [|discriminate].
  destruct (path_exists _ _); cbn -[try_terminals]; [|discriminate].
  destruct (writable w _); cbn -[try_terminals]; [|discriminate].
  case_bool_decide; cbn -[try_terminals].
  - unfold Popen. cbn. destruct (launchable w _); cbn; [|discriminate].
    intros [= <-]. cbn. eexists _, _. split_and!; reflexivity.
  - match goal with |- context [try_terminals ?ts ?w0] =>
      destruct (try_terminals ts w0) as [w2 launched] eqn:Ht;
      apply try_terminals_children in Ht as (Hfiles & Htmp & Hl & Hch)
    end. cbn in Hfiles, Htmp, Hch, Hl.
    destruct launched; cbn.
    + destruct Hch as [c Hc]. intros [= <-]. cbn. rewrite Hfiles, Htmp, Hc.
      eexists _, _. split_and!; reflexivity.
    + unfold Popen. cbn. rewrite Hl. destruct (launchable w _); cbn; [|discriminate].
      intros [= <-]. cbn. rewrite Hfiles, Htmp, Hch.
      eexists _, _. split_and!; reflexivity.
Qed.

(** C8, as the code has it.  The script is written to one fixed name in
    the temporary directory, whatever the arguments, so of two successful
    calls in a row the second overwrites the script of the first; and each
    of the two calls starts a process of its own on that file. *)
Theorem script_path_is_fixed w new1 cur1 new2 cur2 w1 w2 :
  let bat_path := join (gettempdir w) "fxdownloader_update.bat" in
  let script_path := join (gettempdir w) "fxdownloader_update.sh" in
  (apply_windows_update basename dirname join new1 cur1 w = (true, w1) →
   apply_windows_update basename dirname join new2 cur2 w1 = (true, w2) →
   ∃ v1 v2 c1 c2,
     new_exe_path v1 = new1 ∧ new_exe_path v2 = new2
     ∧ files w1 = <[bat_path := BatFile v1]> (files w)
     ∧ files w2 = <[bat_path := BatFile v2]> (files w)
     ∧ children w2 = children w ++ [c1; c2]
     ∧ argv c1 = ["cmd.exe"; "/c"; bat_path]
     ∧ argv c2 = ["cmd.exe"; "/c"; bat_path])
  ∧ (apply_unix_update join new1 cur1 w = (true, w1) →
     apply_unix_update join new2 cur2 w1 = (true, w2) →
     ∃ v1 v2 c1 c2,
       new_binary_path v1 = new1 ∧ new_binary_path v2 = new2
       ∧ files w1 = <[script_path := ShFile v1]> (files w)
       ∧ files w2 = <[script_path := ShFile v2]> (files w)
       ∧ children w2 = children w ++ [c1; c2]).
Proof.
  cbn zeta. split; intros H1 H2.
  - apply apply_windows_update_started in H1 as (v1 & Hf1 & Hn1 & Hc1 & Ht1).
    apply apply_windows_update_started in H2 as (v2 & Hf2 & Hn2 & Hc2 & Ht2).
    rewrite Ht1 in Hf2, Hc2. rewrite Hf1, insert_insert_eq in Hf2.
    rewrite Hc1, <- (assoc_L (++)) in Hc2.
    eexists v1, v2, _, _. split_and!; [done|done|done|done|exact Hc2|done|done].
  - apply apply_unix_update_started in H1 as (v1 & c1 & Hf1 & Hn1 & Hc1 & Ht1).
    apply apply_unix_update_started in H2 as (v2 & c2 & Hf2 & Hn2 & Hc2 & Ht2).
    rewrite Ht1 in Hf2. rewrite Hf1, insert_insert_eq in Hf2.
    rewrite Hc1, <- (assoc_L (++)) in Hc2.
    by exists v1, v2, c1, c2.
Qed.
End python_facts.

Lemma frozen_check_comes_first_witness :
  (apply_windows_update id id slash_join "C:/dl/missing.exe" None (thawed win_world)).1
  = false.
Proof.
  pose proof (frozen_check_comes_first id id slash_join "C:/dl/missing.exe" None
                (thawed win_world) eq_refl) as (H & _).
  by rewrite H.
Defined.

Lemma missing_artifact_stops_apply_witness :
  files (apply_unix_update slash_join "/tmp/missing" None unix_world).2
  = files unix_world.
Proof.
  apply (missing_artifact_stops_apply id id slash_join "/tmp/missing" None unix_world);
    reflexivity.
Defined.

Lemma script_path_is_fixed_witness :
  let w1 := (apply_windows_update id id slash_join "C:/dl/tool.new" None win_world).2 in
  let w2 := (apply_windows_update id id slash_join "C:/dl/tool.new" None w1).2 in
  ∃ v2, files w2 = <[ "C:/tmp/fxdownloader_update.bat" := BatFile v2 ]> (files win_world).
Proof.
  intros w1 w2.
  destruct (script_path_is_fixed id id slash_join win_world
              "C:/dl/tool.new" None "C:/dl/tool.new" None w1 w2) as [Hwin _].
  destruct Hwin as (v1 & v2 & c1 & c2 & _ & _ & _ & Hf2 & _);
    [vm_compute; reflexivity|vm_compute; reflexivity|].
  exists v2. exact Hf2.
Defined.

(** C8, against the specification as written.  Two calls in a row on the
    same install path both succeed and leave two started processes, both
    running the one script file. *)
Lemma two_applies_start_two_scripts :
  let first := apply_windows_update id id slash_join "C:/dl/tool.new" None win_world in
  let second := apply_windows_update id id slash_join "C:/dl/tool.new" None first.2 in
  first.1 = true ∧ second.1 = true
  ∧ argv <$> children second.2
    = [ ["cmd.exe"; "/c"; "C:/tmp/fxdownloader_update.bat"];
        ["cmd.exe"; "/c"; "C:/tmp/fxdownloader_update.bat"] ].
Proof. vm_compute. done. Qed.

(** * Facts about logs *)

Lemma at_stage_app ph l k : at_stage ph (l ++ k) = at_stage ph l ++ at_stage ph k.
Proof. unfold at_stage. by rewrite filter_app, fmap_app. Qed.

Lemma at_stage_mark ph ph' f evs :
  at_stage ph (mark ph' f evs) = if decide (ph' = ph) then evs else [].
Proof.
  unfold at_stage, mark. induction evs as [|e evs IH]; [by case_decide|].
  cbn [fmap list_fmap]. rewrite filter_cons. cbn [stage] in *.
  destruct (decide (ph' = ph)); cbn [fmap list_fmap]; by rewrite IH.
Qed.

Lemma at_stage_mark_eq ph f evs : at_stage ph (mark ph f evs) = evs.
Proof. rewrite at_stage_mark. by case_decide. Qed.

Lemma at_stage_mark_ne ph ph' f evs : ph' ≠ ph → at_stage ph (mark ph' f evs) = [].
Proof. intros. rewrite at_stage_mark. by case_decide. Qed.

Lemma at_stage_nil ph l : Forall (λ e, stage e ≠ ph) l → at_stage ph l = [].
Proof.
  unfold at_stage. induction 1 as [|e l He _ IH]; [done|].
  rewrite filter_cons. by case_decide.
Qed.

Lemma Forall_mark (P : entry → Prop) ph f evs :
  (∀ e, e ∈ evs → P {| stage := ph; what := e; disk := f |}) →
  Forall P (mark ph f evs).
Proof.
  intros H. unfold mark. apply Forall_fmap, Forall_forall. intros e He. by apply H.
Qed.

Lemma Forall_mark_stage (Q : phase → Prop) ph f evs :
  Q ph → Forall (λ e, Q (stage e)) (mark ph f evs).
Proof. intros H. by apply Forall_mark. Qed.








Section batch_logs.
Context (v : bat_vars) (self : string).

Abbreviation cur := (current_exe_path v).
Abbreviation bak := (old_path v).

Lemma bat_prelude_forall (P : entry → Prop) f n killed :
  (∀ ph e, ph ∈ [WaitForExit; ForceKill; ProcessExited] →
           P {| stage := ph; what := e; disk := f |}) →
  Forall P (bat_prelude v f n killed).
Proof.
  intros H. unfold bat_prelude. rewrite !Forall_app. split_and!.
  - apply Forall_mark. intros e _. apply H. list_mem.
  - destruct killed; [|constructor]. apply Forall_mark. intros e _. apply H. list_mem.
  - apply Forall_mark. intros e _. apply H. list_mem.
Qed.


(** Everything the backup state logs is logged in state [Backup], on a
    file system that is the initial one up to the stale backup and the
    moved executable. *)
Lemma bat_backup_forall (P : entry → Prop) f b f1 go :
  bat_backup_shape v f b f1 go →
  (∀ e g, P {| stage := Backup; what := e; disk := g |}) →
  Forall P b.
Proof.
  intros Hb H. inversion Hb; subst; unfold_lets; rewrite ?Forall_app; split_and?;
    try (apply Forall_mark; intros; apply H).
  all: apply Forall_bind, Forall_forall; intros; apply Forall_mark; intros; apply H.
Qed.

Lemma at_stage_prelude ph f n killed :
  ph ∉ [WaitForExit; ForceKill; ProcessExited] →
  at_stage ph (bat_prelude v f n killed) = [].
Proof.
  intros Hph. apply at_stage_nil, bat_prelude_forall.
  intros ph' e Hin. cbn. by intros ->.
Qed.

Lemma at_stage_rounds ph bs :
  ph ≠ Backup → at_stage ph (bs ≫= failed_round v Backup) = [].
Proof.
  intros Hph. apply at_stage_nil, Forall_bind, Forall_forall. intros b _.
  apply Forall_mark. intros e _. cbn. done.
Qed.

Lemma at_stage_backup ph f b f1 go :
  bat_backup_shape v f b f1 go → ph ≠ Backup → at_stage ph b = [].
Proof.
  intros Hb Hph. apply at_stage_nil. eapply bat_backup_forall; [done|].
  intros e g. cbn. done.
Qed.
End batch_logs.

Section shell_logs.
Context (v : sh_vars) (self : string).

Lemma sh_backup_forall (P : entry → Prop) f b f1 go :
  sh_backup_shape v f b f1 go →
  (∀ e g, P {| stage := Backup; what := e; disk := g |}) →
  Forall P b.
Proof.
  intros Hb H. inversion Hb; subst; unfold_lets; [constructor| |];
    apply Forall_mark; intros; apply H.
Qed.

Lemma at_stage_sh_backup ph f b f1 go :
  sh_backup_shape v f b f1 go → ph ≠ Backup → at_stage ph b = [].
Proof.
  intros Hb Hph. apply at_stage_nil. eapply sh_backup_forall; [done|].
  intros e g. cbn. done.
Qed.
End shell_logs.

(** Rewrites the commands logged in a given state out of an explicit log. *)
Ltac stage_simpl :=
  rewrite ?at_stage_app;
  repeat first
    [ rewrite at_stage_mark_eq
    | rewrite at_stage_mark_ne by done
    | rewrite at_stage_rounds by done
    | match goal with
      | |- context [at_stage ?ph (bat_prelude ?v ?f ?n ?k)] =>
          rewrite (at_stage_prelude v ph f n k) by list_mem
      | H : bat_backup_shape ?v ?f ?b _ _ |- context [at_stage ?ph ?b] =>
          rewrite (at_stage_backup v ph _ _ _ _ H) by done
      | H : sh_backup_shape ?v ?f ?b _ _ |- context [at_stage ?ph ?b] =>
          rewrite (at_stage_sh_backup v ph _ _ _ _ H) by done
      end ];
  cbn [app];
  rewrite ?(right_id_L [] (++)).

(** * The replacement scripts *)




(** C3, as the code has it.  The batch file polls for the process at most
    30 times, one second apart, so it waits at most 29 seconds; when the
    30th poll still finds the process it kills it by PID, and in any case
    it then kills by image name, all before the first command of the backup
    state and without touching a file.  The shell script polls one second
    apart for as long as the process is found, with no bound and without
    ever killing anything; it goes on only after a poll that does not find
    the process. *)
Theorem wait_is_bounded_in_batch_only E f dir fuel :
  (∀ v self, 30 ≤ fuel →
     ∃ n killed rest,
       log (final (bat_content v self fuel E (boot f dir)))
       = mark WaitForExit f (polls (pid v) n ++ [Probe_pid (pid v) killed])
         ++ (if killed then mark ForceKill f [Kill_pid (pid v); Sleep 1] else [])
         ++ mark ProcessExited f [Kill_image (exe_name v); Sleep 2]
         ++ rest
       ∧ n ≤ 29 ∧ (killed = true → n = 29)
       ∧ slept (polls (pid v) n ++ [Probe_pid (pid v) killed]) ≤ 29
       ∧ Forall (λ e, stage e ∉ [WaitForExit; ForceKill; ProcessExited]) rest)
  ∧ (∀ v self,
     let r := shell_content v self fuel E (boot f dir) in
     Forall (λ e, is_kill (what e) = false) (log (final r))
     ∧ ((hangs r
         ∧ log (final r) = mark WaitForExit f (polls (sh_pid v) fuel)
         ∧ slept (polls (sh_pid v) fuel) = fuel)
        ∨ (∃ n rest,
             log (final r)
             = mark WaitForExit f
                 (polls (sh_pid v) n ++ [Probe_pid (sh_pid v) false])
               ++ rest
             ∧ Forall (λ e, stage e ≠ WaitForExit) rest))).
Proof.
  split; intros v self.
  - intros Hfuel.
    destruct (bat_content_shape v self E fuel f dir Hfuel)
      as (code & l & g & Hs & Hcode & Hlog & Hfs & Hended).
    rewrite Hlog. clear Hcode Hlog Hfs.
    assert (∀ n killed, n ≤ 29 →
              slept (polls (pid v) n ++ [Probe_pid (pid v) killed]) ≤ 29) as Hslept.
    { intros n killed Hn. clear -Hn.
      induction n as [|n IH]; [cbn; lia|]. rewrite polls_S. cbn [app slept].
      assert (slept (polls (pid v) n ++ [Probe_pid (pid v) killed]) = n) as ->; [|lia].
      clear. induction n as [|n IH]; [done|]. rewrite polls_S. cbn [app slept].
      by rewrite IH. }
    inversion Hs as [n killed b g' Hn Hk Hb|n killed b f1 code' l' g' Hn Hk Hb Hl]; subst.
    + exists n, killed, b. split_and!; [|done|done|by apply Hslept|].
      * unfold bat_prelude. by rewrite <- !(assoc_L (++)).
      * eapply bat_backup_forall; [done|]. intros e g0. cbn. list_mem.
    + exists n, killed, (b ++ l'). split_and!; [|done|done|by apply Hslept|].
      * unfold bat_prelude. by rewrite <- !(assoc_L (++)).
      * apply Forall_app. split.
        -- eapply bat_backup_forall; [done|]. intros e g0. cbn. list_mem.
        -- inversion Hl; subst; unfold_lets; rewrite ?Forall_app; split_and?;
             apply Forall_mark_stage with (Q := λ ph, ph ∉ [WaitForExit; ForceKill; ProcessExited]);
             list_mem.
  - intros r.
    destruct (shell_content_shape v self E fuel f dir)
      as (code & l & g & Hs & Hcode & Hlog & Hfs & Hhang).
    fold r in Hcode, Hlog, Hfs, Hhang. rewrite Hlog. clear Hcode Hlog Hfs.
    assert (∀ p n k, is_kill k = false →
              Forall (λ e, is_kill (what e) = false)
                (mark WaitForExit f (polls p n ++ [k]))) as Hpolls.
    { intros p n k Hk. apply Forall_mark. intros e [He|He]%elem_of_app; cbn.
      - clear -He. induction n as [|n IH]; [by apply elem_of_nil in He|].
        rewrite polls_S in He. list_mem.
      - apply list_elem_of_singleton in He as ->. done. }
    inversion Hs as [|n b g' Hn Hb|n b f1 code' l' g' Hn Hb Hl]; subst.
    + split.
      * apply Forall_mark. intros e He. cbn. clear -He.
        induction fuel as [|n IH]; [by apply elem_of_nil in He|].
        rewrite polls_S in He. list_mem.
      * left. split_and!; [by apply Hhang|done|apply slept_polls].
    + split.
      * apply Forall_app. split; [by apply Hpolls|].
        inversion Hb; subst; unfold_lets. apply Forall_mark. list_mem.
      * right. exists n, b. split; [done|].
        eapply sh_backup_forall; [done|]. intros e g0. cbn. done.
    + split.
      * apply Forall_app. split; [by apply Hpolls|]. apply Forall_app. split.
        -- inversion Hb; subst; unfold_lets; [constructor|].
           apply Forall_mark. list_mem.
        -- inversion Hl; subst; unfold_lets; rewrite ?Forall_app; split_and?;
             apply Forall_mark; list_mem.
      * right. exists n, (b ++ l'). split; [done|]. apply Forall_app. split.
        -- eapply sh_backup_forall; [done|]. intros e g0. cbn. done.
        -- inversion Hl; subst; unfold_lets; rewrite ?Forall_app; split_and?;
             by apply Forall_mark_stage with (Q := λ ph, ph ≠ WaitForExit).
Qed.

Lemma wait_is_bounded_in_batch_only_witness :
  ∃ n killed rest,
    log (final (bat_content win_vars win_script 30 busy (boot win_disk "C:/tmp")))
    = mark WaitForExit win_disk (polls 4242 n ++ [Probe_pid 4242 killed])
      ++ (if killed then mark ForceKill win_disk [Kill_pid 4242; Sleep 1] else [])
      ++ mark ProcessExited win_disk [Kill_image "tool.exe"; Sleep 2]
      ++ rest
    ∧ n ≤ 29 ∧ (killed = true → n = 29)
    ∧ slept (polls 4242 n ++ [Probe_pid 4242 killed]) ≤ 29
    ∧ Forall (λ e, stage e ∉ [WaitForExit; ForceKill; ProcessExited]) rest.
Proof.
  apply (proj1 (wait_is_bounded_in_batch_only busy win_disk "C:/tmp" 30)
           win_vars win_script).
  lia.
Defined.

(** C3, against the specification as written.  While the process stays alive
    the shell script is still polling after 100 seconds; it has killed
    nothing and has not reached the backup state. *)
Lemma shell_wait_has_no_bound :
  let r := shell_content unix_vars unix_script 100 busy (boot unix_disk "/home/u") in
  hangs r
  ∧ slept (events (final r)) = 100
  ∧ forallb (λ e, negb (is_kill e)) (events (final r)) = true
  ∧ at_stage ForceKill (log (final r)) = []
  ∧ at_stage Backup (log (final r)) = [].
Proof. vm_compute. done. Qed.




(** C5, as the code has it, for plain paths.  In a run that found the
    current executable in place, with content [old]: when the copy of the new binary fails, the
    next command is the restore from the backup (a move in the batch file,
    a copy in the shell script), then the script waits for a key and exits
    1; and when the restore succeeds the file at the current path is [old]
    again.  The scripts do not look at the outcome of the restore. *)
Theorem failed_install_restores_the_backup E f dir fuel old :
  (∀ v self, bat_vars_plain v = true → bat_plain self = true →
     30 ≤ fuel → f !! current_exe_path v = Some old →
     let r := bat_content v self fuel E (boot f dir) in
     at_stage Install (log (final r))
       = [Copy (new_exe_path v) (current_exe_path v) false] →
     exit_code r = Some 1%Z
     ∧ ∃ pre f1 f2 ok,
         log (final r)
         = pre ++ mark Install f1 [Copy (new_exe_path v) (current_exe_path v) false]
               ++ mark Rollback f2 [Move (old_path v) (current_exe_path v) ok; Pause]
         ∧ fs (final r) = f2
         ∧ (ok = true → f2 !! current_exe_path v = Some old))
  ∧ (∀ v self, sh_vars_plain v = true → sh_plain self = true →
     f !! current_binary_path v = Some old →
     let r := shell_content v self fuel E (boot f dir) in
     at_stage Install (log (final r))
       = [Copy (new_binary_path v) (current_binary_path v) false] →
     exit_code r = Some 1%Z
     ∧ ∃ pre f1 f2 ok,
         log (final r)
         = pre ++ mark Install f1
                    [Copy (new_binary_path v) (current_binary_path v) false]
               ++ mark Rollback f2
                    [Copy (BACKUP_PATH v) (current_binary_path v) ok; Pause]
         ∧ fs (final r) = f2
         ∧ (ok = true → f2 !! current_binary_path v = Some old)).
Proof.
  split; intros v self.
  - intros _ _ Hfuel Hcur r.
    destruct (bat_content_shape v self E fuel f dir Hfuel)
      as (code & l & g & Hs & Hcode & Hlog & Hfs & Hended).
    fold r in Hcode, Hlog, Hfs. rewrite Hcode, Hlog, Hfs. clear Hcode Hlog Hfs.
    pose proof (old_path_neq v) as Hne.
    inversion Hs as [n killed b g' Hn Hk Hb|n killed b f1 code' l' g' Hn Hk Hb Hl]; subst.
    + stage_simpl. discriminate.
    + inversion Hb as [d g0 Hc Hg|old' bs d g0 Hc Hlen Hbs Hg|]; subst; [congruence|].
      assert (old' = old) as -> by congruence. unfold_lets.
      inversion Hl as [d' Hbak|d' c Hbak|d' Hbak|]; subst; unfold_lets;
        stage_simpl; intros Hinst; try discriminate.
      * rewrite lookup_insert_eq in Hbak. discriminate.
      * rewrite lookup_insert_eq in Hbak. injection Hbak as <-.
        split; [done|]. eexists _, _, _, true. split_and!.
        -- rewrite (assoc_L (++) (bat_prelude v f n killed)). reflexivity.
        -- done.
        -- intros _. apply lookup_insert_eq.
      * split; [done|]. eexists _, _, _, false. split_and!.
        -- rewrite (assoc_L (++) (bat_prelude v f n killed)). reflexivity.
        -- done.
        -- discriminate.
  - intros _ _ Hcur r.
    destruct (shell_content_shape v self E fuel f dir)
      as (code & l & g & Hs & Hcode & Hlog & Hfs & Hhang).
    fold r in Hcode, Hlog, Hfs, Hhang. rewrite Hcode, Hlog, Hfs. clear Hcode Hlog Hfs.
    pose proof (BACKUP_PATH_neq v) as Hne.
    inversion Hs as [|n b g' Hn Hb|n b f1 code' l' g' Hn Hb Hl]; subst.
    + stage_simpl. discriminate.
    + stage_simpl. discriminate.
    + inversion Hb as [Hc|old' Hc|]; subst; [congruence|]. unfold_lets.
      assert (old' = old) as -> by congruence.
      inversion Hl as [d c f1' Hbak|d d'|]; subst; unfold_lets;
        stage_simpl; intros Hinst; try discriminate.
      * rewrite wreck_other, lookup_insert_eq in Hbak by done. injection Hbak as <-.
        split; [done|]. eexists _, _, _, true. split_and!.
        -- rewrite (assoc_L (++) (mark WaitForExit _ _)). reflexivity.
        -- done.
        -- intros _. apply lookup_insert_eq.
      * split; [done|]. eexists _, _, _, false. split_and!.
        -- rewrite (assoc_L (++) (mark WaitForExit _ _)). reflexivity.
        -- done.
        -- discriminate.
Qed.

Lemma failed_install_restores_the_backup_witness :
  let r := bat_content win_vars win_script 30 (fails_at 5) (boot win_disk "C:/tmp") in
  exit_code r = Some 1%Z
  ∧ ∃ pre f1 f2 ok,
      log (final r)
      = pre ++ mark Install f1
                 [Copy (new_exe_path win_vars) (current_exe_path win_vars) false]
            ++ mark Rollback f2
                 [Move (old_path win_vars) (current_exe_path win_vars) ok; Pause]
      ∧ fs (final r) = f2
      ∧ (ok = true → f2 !! current_exe_path win_vars = Some (Bytes "old")).
Proof.
  apply (proj1 (failed_install_restores_the_backup (fails_at 5) win_disk "C:/tmp" 30
                  (Bytes "old")) win_vars win_script);
    [reflexivity|reflexivity|lia|reflexivity|vm_compute; reflexivity].
Defined.

(** C5, against the specification as written.  With no executable at the
    current path there is no backup, and after a failed copy the batch file
    restores nothing: it only waits for a key, leaving the truncated file
    the copy produced where no file was before.  With the executable in
    place and a disk that fills up, the copy of the shell script fails, its
    restore fails as well, and the file at the current path is left
    truncated. *)
Lemma failed_install_can_leave_damage :
  let win := bat_content win_vars win_script 30 (disk_full_from 4)
               (boot win_bare_disk "C:/tmp") in
  let unix := shell_content unix_vars unix_script 30 (disk_full_from 2)
                (boot unix_disk "/home/u") in
  at_stage Install (log (final win)) = [Copy "C:/dl/tool.new" "C:/app/tool.exe" false]
  ∧ at_stage Rollback (log (final win)) = [Pause]
  ∧ win_bare_disk !! "C:/app/tool.exe" = None
  ∧ fs (final win) !! "C:/app/tool.exe" = Some (Bytes "trunc")
  ∧ at_stage Install (log (final unix)) = [Copy "/tmp/tool.new" "/app/tool" false]
  ∧ at_stage Rollback (log (final unix))
    = [Copy "/app/tool.backup" "/app/tool" false; Pause]
  ∧ unix_disk !! "/app/tool" = Some (Bytes "old")
  ∧ fs (final unix) !! "/app/tool" = Some (Bytes "trunc").
Proof. vm_compute. done. Qed.










(** * More on the Python side *)

Section python_more.
Variables (basename dirname : string → string) (join : string → string → string).

(** A call of [apply_windows_update] that returns [True] went through
    every check. *)
Lemma apply_windows_update_true new_path current w :
  (apply_windows_update basename dirname join new_path current w).1 = true →
  frozen w = true ∧ is_Some (files w !! new_path) ∧ platform w = "win32"
  ∧ writable w (join (gettempdir w) "fxdownloader_update.bat") = true
  ∧ launchable w "cmd.exe" = true.
Proof.
  unfold apply_windows_update, write_file, Popen, path_exists.
  destruct (frozen w); cbn; [|discriminate].
  case_bool_decide; cbn; [|discriminate].
  destruct (writable w _); cbn; [|discriminate].
  case_bool_decide; cbn; [|discriminate].
  destruct (launchable w _); cbn; [|discriminate]. done.
Qed.

(** The terminal loop starts the first command of the list whose program
    can be launched, and nothing else. *)
Lemma try_terminals_first terminals w :
  let can (t : list string) := default false (launchable w <$> head t) in
  let r := try_terminals terminals w in
  files r.1 = files w ∧ gettempdir r.1 = gettempdir w
  ∧ launchable r.1 = launchable w
  ∧ match head (filter (λ t, can t = true) terminals) with
    | Some t => r.2 = true
                ∧ children r.1
                  = children w ++ [ {| argv := t; new_console := false;
                                       new_session := true; child_cwd := None |} ]
    | None => r.2 = false ∧ children r.1 = children w
    end.
Proof.
  cbn zeta. revert w. induction terminals as [|t ts IH]; intros w; [done|].
  cbn [try_terminals]. unfold Popen. cbn [argv].
  rewrite filter_cons. destruct t as [|prog args];
    cbn [head fmap option_fmap option_map default].
  - rewrite decide_False by done.
    destruct (IH (called (Sys_popen [] false) w)) as (? & ? & ? & ?). done.
  - destruct (launchable w prog) eqn:Hl.
    + rewrite decide_True by done. done.
    + rewrite decide_False by done.
      destruct (IH (called (Sys_popen (prog :: args) false) w)) as (? & ? & ? & ?).
      done.
Qed.

(** The same for [apply_unix_update]. *)
Lemma apply_unix_update_true new_path current w :
  (apply_unix_update join new_path current w).1 = true →
  frozen w = true ∧ is_Some (files w !! new_path)
  ∧ writable w (join (gettempdir w) "fxdownloader_update.sh") = true.
Proof.
  unfold apply_unix_update, write_file, path_exists.
  destruct (frozen w); cbn -[try_terminals]; [|discriminate].
  case_bool_decide; cbn -[try_terminals]; [|discriminate].
  destruct (writable w _); cbn -[try_terminals]; [|discriminate]. done.
Qed.



(** X1.  [apply_update] starts an update only where [can_auto_update] says
    one is possible, and only when the new file exists: whenever it returns
    [True], [can_auto_update] is [True] for the same interpreter and the new
    file is there. *)
Theorem apply_update_needs_auto_update_support new_path current w :
  (apply_update basename dirname join new_path current w).1 = true →
  can_auto_update w = true ∧ is_Some (files w !! new_path).
Proof.
  unfold apply_update, can_auto_update.
  case_bool_decide as Hwin; [|case_bool_decide as Hlin; [|case_bool_decide as Hmac]];
    cbn [orb].
  - intros (Hf & Hnew & _)%apply_windows_update_true. rewrite Hf, Hwin. done.
  - intros (Hf & Hnew & _)%apply_unix_update_true. rewrite Hf, Hlin. done.
  - intros (Hf & Hnew & _)%apply_unix_update_true. rewrite Hf, Hmac. done.
  - discriminate.
Qed.

(** X2.  A call that returns [False] has started no process: whatever made it
    fail (not a packaged build, no new file, a script that cannot be
    written, a launcher that cannot be started, a platform without updater),
    the list of child processes is as it was. *)
Theorem failed_apply_starts_nothing new_path current w :
  let win := apply_windows_update basename dirname join new_path current w in
  let unix := apply_unix_update join new_path current w in
  let any := apply_update basename dirname join new_path current w in
  (win.1 = false → children win.2 = children w)
  ∧ (unix.1 = false → children unix.2 = children w)
  ∧ (any.1 = false → children any.2 = children w).
Proof.
  cbn zeta.
  assert (Hwin : (apply_windows_update basename dirname join new_path current w).1
                 = false
                 → children (apply_windows_update basename dirname join
                               new_path current w).2 = children w).
  { unfold apply_windows_update, write_file, Popen.
    destruct (frozen w); cbn; [|done].
    destruct (path_exists _ _); cbn; [|done].
    destruct (writable w _); cbn; [|done].
    case_bool_decide; cbn; [|done].
    destruct (launchable w _); cbn; [discriminate|done]. }
  assert (Hunix : (apply_unix_update join new_path current w).1 = false
                  → children (apply_unix_update join new_path current w).2
                    = children w).
  { unfold apply_unix_update, write_file.
    destruct (frozen w); cbn -[try_terminals]; [|done].
    destruct (path_exists _ _); cbn -[try_terminals]; [|done].
    destruct (writable w _); cbn -[try_terminals]; [|done].
    case_bool_decide; cbn -[try_terminals].
    - unfold Popen. cbn. destruct (launchable w _); cbn; [discriminate|done].
    - match goal with |- context [try_terminals ?ts ?w0] =>
        destruct (try_terminals ts w0) as [w2 launched] eqn:Ht;
        apply try_terminals_children in Ht as (_ & _ & Hl & Hch)
      end. cbn in Hl, Hch.
      destruct launched; cbn; [discriminate|].
      unfold Popen. cbn. rewrite Hl.
      destruct (launchable w _); cbn; [discriminate|]. by rewrite Hch. }
  split_and!; [done|done|].
  unfold apply_update. repeat case_bool_decide; cbn [orb]; done.
Qed.

(** X4.  Away from macOS, a successful [apply_unix_update] has started
    exactly one process, in a session of its own: the first of
    gnome-terminal, konsole, xfce4-terminal, xterm and termux-open that can
    be launched, and plain [bash] on the script when none of them can. *)
Theorem first_terminal_found_runs_the_script new_path current w :
  platform w ≠ "darwin" →
  let script_path := join (gettempdir w) "fxdownloader_update.sh" in
  let terminals :=
    [ ["gnome-terminal"; "--"; "bash"; script_path];
      ["konsole"; "-e"; "bash"; script_path];
      ["xfce4-terminal"; "-e"; "bash " +:+ script_path];
      ["xterm"; "-e"; "bash"; script_path];
      ["termux-open"; script_path] ] in
  let can (t : list string) := default false (launchable w <$> head t) in
  let r := apply_unix_update join new_path current w in
  r.1 = true →
  children r.2
  = children w
    ++ [ {| argv := default ["bash"; script_path]
                      (head (filter (λ t, can t = true) terminals));
            new_console := false; new_session := true; child_cwd := None |} ].
Proof.
  intros Hp script_path terminals can r. subst r.
  remember (head (filter (λ t, can t = true) terminals)) as best eqn:Hbest.
  unfold apply_unix_update, write_file.
  destruct (frozen w); cbn -[try_terminals]; [|discriminate].
  destruct (path_exists _ _); cbn -[try_terminals]; [|discriminate].
  destruct (writable w _); cbn -[try_terminals]; [|discriminate].
  rewrite bool_decide_eq_false_2 by done. cbn -[try_terminals].
  match goal with |- context [try_terminals ?ts ?w0] =>
    pose proof (try_terminals_first ts w0) as Hfirst; cbn zeta in Hfirst;
    destruct Hfirst as (_ & _ & Hl & Hhead);
    destruct (try_terminals ts w0) as [w2 launched]
  end.
  cbn [fst snd launchable called written children] in Hl, Hhead.
  fold script_path in Hhead |- *. fold terminals in Hhead.
  unfold can in Hbest. rewrite <- Hbest in Hhead. clear Hbest.
  destruct best as [t|].
  - destruct Hhead as [-> Hch]. cbn. intros _. exact Hch.
  - destruct Hhead as [-> Hch]. cbn. unfold Popen. cbn. rewrite Hl.
    destruct (launchable w "bash"); cbn; [|discriminate].
    intros _. by rewrite Hch.
Qed.

(** X5.  When the script can be written but nothing can be launched, both
    functions return [False] and leave the script they wrote in the
    temporary directory, with no process started. *)
Theorem script_that_cannot_start_is_left_behind new_path current w :
  frozen w = true → is_Some (files w !! new_path) →
  writable w (join (gettempdir w) "fxdownloader_update.bat") = true →
  writable w (join (gettempdir w) "fxdownloader_update.sh") = true →
  (∀ prog, launchable w prog = false) →
  let win := apply_windows_update basename dirname join new_path current w in
  let unix := apply_unix_update join new_path current w in
  win.1 = false ∧ unix.1 = false
  ∧ (∃ v, files win.2
          = <[join (gettempdir w) "fxdownloader_update.bat" := BatFile v]> (files w))
  ∧ (∃ v, files unix.2
          = <[join (gettempdir w) "fxdownloader_update.sh" := ShFile v]> (files w))
  ∧ children win.2 = children w ∧ children unix.2 = children w.
Proof.
  intros Hf Hnew Hwb Hws Hl. cbn zeta.
  unfold apply_windows_update, apply_unix_update, write_file, path_exists, Popen.
  rewrite Hf. cbn -[try_terminals].
  rewrite !bool_decide_eq_true_2 by done. cbn -[try_terminals].
  rewrite Hwb, Hws. cbn -[try_terminals]. rewrite Hl.
  assert (Htry : ∀ ts w0, launchable w0 = launchable w →
            (try_terminals ts w0).2 = false
            ∧ files (try_terminals ts w0).1 = files w0
            ∧ children (try_terminals ts w0).1 = children w0
            ∧ launchable (try_terminals ts w0).1 = launchable w).
  { induction ts as [|t ts IH]; intros w0 Hw0; [done|].
    cbn [try_terminals]. unfold Popen. cbn [argv].
    destruct t as [|prog args].
    - destruct (IH (called (Sys_popen [] false) w0)) as (? & ? & ? & ?); done.
    - rewrite Hw0, Hl.
      destruct (IH (called (Sys_popen (prog :: args) false) w0)) as (? & ? & ? & ?);
        done. }
  split_and!.
  - by case_bool_decide.
  - case_bool_decide; cbn -[try_terminals]; [by rewrite Hl|].
    match goal with |- context [try_terminals ?ts ?w0] =>
      destruct (Htry ts w0) as (Hlaunched & _ & _ & Hl'); [done|];
      destruct (try_terminals ts w0) as [w2 launched]
    end. cbn in Hlaunched, Hl'. subst launched. cbn. by rewrite Hl', Hl.
  - eexists. case_bool_decide; cbn; reflexivity.
  - eexists. case_bool_decide; cbn -[try_terminals]; [by rewrite Hl|].
    match goal with |- context [try_terminals ?ts ?w0] =>
      destruct (Htry ts w0) as (Hlaunched & Hfiles & _ & Hl'); [done|];
      destruct (try_terminals ts w0) as [w2 launched]
    end. cbn in Hlaunched, Hl', Hfiles. subst launched. cbn. rewrite Hl', Hl. cbn.
    rewrite Hfiles. reflexivity.
  - by case_bool_decide.
  - case_bool_decide; cbn -[try_terminals]; [by rewrite Hl|].
    match goal with |- context [try_terminals ?ts ?w0] =>
      destruct (Htry ts w0) as (Hlaunched & _ & Hch & Hl'); [done|];
      destruct (try_terminals ts w0) as [w2 launched]
    end. cbn in Hlaunched, Hl', Hch. subst launched. cbn. rewrite Hl', Hl. cbn.
    by rewrite Hch.
Qed.
End python_more.

Lemma apply_update_needs_auto_update_support_witness :
  can_auto_update win_world = true
  ∧ is_Some (files win_world !! "C:/dl/tool.new").
Proof.
  apply (apply_update_needs_auto_update_support id id slash_join
           "C:/dl/tool.new" None win_world).
  vm_compute. reflexivity.
Defined.

Lemma failed_apply_starts_nothing_witness :
  children (apply_unix_update slash_join "/tmp/tool.new" None
              (no_launcher unix_world)).2 = [].
Proof.
  apply (failed_apply_starts_nothing id id slash_join "/tmp/tool.new" None
           (no_launcher unix_world)).
  vm_compute. reflexivity.
Defined.

Lemma first_terminal_found_runs_the_script_witness :
  argv <$> children (apply_unix_update slash_join "/tmp/tool.new" None unix_world).2
  = [ ["xterm"; "-e"; "bash"; "/tmp/fxdownloader_update.sh"] ].
Proof.
  rewrite (first_terminal_found_runs_the_script slash_join "/tmp/tool.new" None
             unix_world); [reflexivity|discriminate|vm_compute; reflexivity].
Defined.

Lemma script_that_cannot_start_is_left_behind_witness :
  (apply_unix_update slash_join "/tmp/tool.new" None (no_launcher unix_world)).1
  = false.
Proof.
  apply (script_that_cannot_start_is_left_behind id id slash_join "/tmp/tool.new"
           None (no_launcher unix_world));
    [reflexivity|by eexists|reflexivity|reflexivity|reflexivity].
Defined.

(** * More on the replacement scripts *)





Section batch_more.
Context (v : bat_vars) (self : string).

Abbreviation cur := (current_exe_path v).
Abbreviation bak := (old_path v).
Abbreviation new := (new_exe_path v).








End batch_more.

Section shell_more.
Context (v : sh_vars) (self : string).

Abbreviation scur := (current_binary_path v).
Abbreviation sbak := (BACKUP_PATH v).
Abbreviation snew := (new_binary_path v).





End shell_more.






(** * From the call to the installed file *)

Section update_end_to_end.
Variables (basename dirname : string → string) (join : string → string → string).

End update_end_to_end.


(** * Looking for a release *)

Section sort_facts.
Context {A K : Type} `{EqDecision K} (key : A → K) (lt : K → K → bool).

Lemma insert_by_skip x l1 l2 :
  Forall (λ y, lt (key y) (key x) = true) l1 →
  insert_by key lt x (l1 ++ l2) = l1 ++ insert_by key lt x l2.
Proof.
  induction 1 as [|y l1 Hy _ IH]; [done|]. cbn. by rewrite Hy, IH.
Qed.

Lemma insert_by_head x l :
  Forall (λ y, lt (key y) (key x) = false) l →
  insert_by key lt x l = x :: l.
Proof. destruct 1 as [|y l Hy _]; [done|]. cbn. by rewrite Hy. Qed.

Lemma insert_by_perm x l : insert_by key lt x l ≡ₚ x :: l.
Proof.
  induction l as [|y l IH]; [done|]. cbn. destruct (lt _ _); [|done].
  rewrite IH. apply Permutation_swap.
Qed.

(** The sort neither loses nor invents an element. *)
Lemma sort_by_perm l : sort_by key lt l ≡ₚ l.
Proof.
  induction l as [|x l IH]; [done|]. cbn. by rewrite insert_by_perm, IH.
Qed.

Lemma bind_filter_nil (ks : list K) :
  ks ≫= (λ k, filter (λ x : A, key x = k) []) = [].
Proof. induction ks as [|k ks IH]; [done|]. cbn. exact IH. Qed.

Lemma bind_ext_in {B C} (f g : B → list C) (l : list B) :
  (∀ b, b ∈ l → f b = g b) → l ≫= f = l ≫= g.
Proof.
  induction l as [|b l IH]; intros H; [done|]. cbn. rewrite H by left.
  f_equal. apply IH. intros b' Hb'. apply H. by right.
Qed.

(** When the keys that occur are [ks], listed in ascending order, the
    sorted list is made of the elements with the first key, then those
    with the second, and so on, each group in the order it had. *)
Lemma sort_by_groups (ks : list K) l :
  (∀ i j k k', ks !! i = Some k → ks !! j = Some k' → i ≤ j → lt k' k = false) →
  (∀ i j k k', ks !! i = Some k → ks !! j = Some k' → i < j → lt k k' = true) →
  Forall (λ x, key x ∈ ks) l →
  sort_by key lt l = ks ≫= (λ k, filter (λ x, key x = k) l).
Proof.
  intros Hge Hlt Hl. induction Hl as [|x l Hx _ IH].
  { by rewrite bind_filter_nil. }
  cbn [sort_by foldr]. fold (sort_by key lt l). rewrite IH. clear IH.
  revert Hge Hlt Hx. induction ks as [|k ks IH]; intros Hge Hlt Hx.
  { by apply elem_of_nil in Hx. }
  assert (Hrest : ∀ k', k' ∈ ks → k' ≠ k).
  { intros k' [j Hj]%list_elem_of_lookup ->.
    pose proof (Hge 0 (S j) k k eq_refl Hj ltac:(lia)).
    pose proof (Hlt 0 (S j) k k eq_refl Hj ltac:(lia)). congruence. }
  cbn [mbind list_bind]. rewrite filter_cons.
  destruct (decide (key x = k)) as [Hk|Hk].
  - assert (ks ≫= (λ k0, filter (λ x0, key x0 = k0) (x :: l))
            = ks ≫= (λ k0, filter (λ x0, key x0 = k0) l)) as ->.
    { apply bind_ext_in. intros k' Hk'. rewrite filter_cons.
      rewrite decide_False; [done|]. rewrite Hk. by apply not_eq_sym, Hrest. }
    apply insert_by_head. rewrite Forall_app. split.
    + apply Forall_forall. intros y [Hy _]%list_elem_of_filter. rewrite Hy, Hk.
      by apply (Hge 0 0 k k).
    + apply Forall_bind, Forall_forall. intros k' [j Hj]%list_elem_of_lookup.
      apply Forall_forall. intros y [Hy _]%list_elem_of_filter. rewrite Hy, Hk.
      apply (Hge 0 (S j) k k'); [done|done|lia].
  - apply elem_of_cons in Hx as [Hx|Hx]; [done|].
    rewrite insert_by_skip.
    + f_equal. apply IH; [| |done].
      * intros i j k1 k2 Hi Hj Hij. apply (Hge (S i) (S j)); [done|done|lia].
      * intros i j k1 k2 Hi Hj Hij. apply (Hlt (S i) (S j)); [done|done|lia].
    + apply Forall_forall. intros y [Hy _]%list_elem_of_filter. rewrite Hy.
      apply list_elem_of_lookup in Hx as [j Hj].
      apply (Hlt 0 (S j) k (key x)); [done|done|lia].
Qed.
End sort_facts.

Section str_facts.
Context {A : Type} `{EqDecision A}.

Lemma length_lstrip (gone : A → bool) s : length (lstrip gone s) ≤ length s.
Proof.
  induction s as [|c s IH]; [done|]. cbn. destruct (gone c); cbn; lia.
Qed.

Lemma length_strip (gone : A → bool) s : length (strip gone s) ≤ length s.
Proof.
  unfold strip, rstrip. rewrite length_reverse.
  etrans; [apply length_lstrip|]. rewrite length_reverse. apply length_lstrip.
Qed.

Lemma Forall_lstrip (P : A → Prop) (gone : A → bool) s :
  Forall P s → Forall P (lstrip gone s).
Proof.
  induction 1 as [|c s Hc Hs IH]; [done|]. cbn. destruct (gone c); [done|].
  by constructor.
Qed.

Lemma Forall_strip (P : A → Prop) (gone : A → bool) s :
  Forall P s → Forall P (strip gone s).
Proof.
  intros H. unfold strip, rstrip.
  apply Forall_reverse, Forall_lstrip, Forall_reverse, Forall_lstrip, H.
Qed.

(** Leading characters that are all to go make no difference. *)
Lemma lstrip_app_gone (gone : A → bool) pre s :
  Forall (λ c, gone c = true) pre → lstrip gone (pre ++ s) = lstrip gone s.
Proof. induction 1 as [|c pre Hc _ IH]; [done|]. cbn. by rewrite Hc. Qed.
End str_facts.

Section assets_facts.
Variables (lower : text → text) (format_mb : Z → text).

Lemma windows_keys_ascend :
  let ks := [(false, "standalone"); (true, "debug"); (true, "standard")] in
  (∀ i j k k', ks !! i = Some k → ks !! j = Some k' → i ≤ j → key_lt k' k = false)
  ∧ (∀ i j k k', ks !! i = Some k → ks !! j = Some k' → i < j → key_lt k k' = true).
Proof.
  cbn zeta. split; intros [|[|[|i]]] [|[|[|j]]] k k' Hi Hj Hij;
    cbn in Hi, Hj; simplify_eq; (lia || reflexivity).
Qed.

Lemma unix_keys_ascend :
  let ks := [(false, "release"); (true, "debug")] in
  (∀ i j k k', ks !! i = Some k → ks !! j = Some k' → i ≤ j → key_lt k' k = false)
  ∧ (∀ i j k k', ks !! i = Some k → ks !! j = Some k' → i < j → key_lt k k' = true).
Proof.
  cbn zeta. split; intros [|[|i]] [|[|j]] k k' Hi Hj Hij;
    cbn in Hi, Hj; simplify_eq; (lia || reflexivity).
Qed.

Lemma group_names platform (k : bool * string) (pick : text → bool) (l : list asset) :
  (∀ a p, parse_asset lower format_mb platform a = Some p →
          pa_name p = default [] (asset_name a)
          ∧ (sort_key p = k ↔ pick (pa_name p) = true)) →
  (∀ a, parse_asset lower format_mb platform a = None →
        pick (default [] (asset_name a)) = false) →
  pa_name <$> filter (λ x, sort_key x = k)
                (omap (parse_asset lower format_mb platform) l)
  = filter (λ n, pick n = true) ((λ a, default [] (asset_name a)) <$> l).
Proof.
  intros Hsome Hnone. induction l as [|a l IH]; [done|].
  rewrite fmap_cons, (filter_cons (λ n, pick n = true)). cbn [omap list_omap].
  destruct (parse_asset lower format_mb platform a) as [p|] eqn:Hp.
  - destruct (Hsome a p Hp) as [Hn Hk]. rewrite filter_cons, <- Hn.
    destruct (decide (sort_key p = k)) as [Heq|Hne].
    + rewrite decide_True by (by apply Hk). cbn. by rewrite IH.
    + rewrite decide_False by (by rewrite <- Hk). done.
  - rewrite decide_False by (by rewrite (Hnone a Hp)). done.
Qed.

(** Takes a round [H] of the loop apart: every test on the name either
    way. *)
Ltac parse_cases H :=
  unfold parse_asset in H;
  repeat first
    [ rewrite bool_decide_eq_true_2 in H by done
    | rewrite bool_decide_eq_false_2 in H by done
    | match type of H with
      | context [endswith ?s ?t] => destruct (endswith s t) eqn:?
      | context [contains ?s ?t] => destruct (contains s t) eqn:?
      end
    | progress cbn [negb andb] in H ];
  simplify_eq.

(** Settles what a test on the name gave. *)
Ltac use_tests :=
  cbn [sort_key pa_name pa_type pa_recommended negb];
  repeat match goal with
         | H : endswith _ _ = _ |- _ => rewrite H; clear H
         | H : contains _ _ = _ |- _ => rewrite H; clear H
         end;
  cbn [negb andb].

Lemma platform_cases (platform : string) :
  platform = "windows" ∨ platform = "linux" ∨ platform = "macos"
  ∨ platform ∉ ["windows"; "linux"; "macos"].
Proof.
  destruct (decide (platform = "windows")); [by left|].
  destruct (decide (platform = "linux")); [by right; left|].
  destruct (decide (platform = "macos")); [by right; right; left|].
  right; right; right. list_mem.
Qed.

(** On any other platform every round of the loop is a [continue]. *)
Lemma parse_asset_other platform a :
  platform ∉ ["windows"; "linux"; "macos"] →
  parse_asset lower format_mb platform a = None.
Proof.
  intros Hp. unfold parse_asset.
  rewrite !bool_decide_eq_false_2; [done|..]; intros ->; apply Hp; list_mem.
Qed.

(** X12.  For Windows, [parse_release_assets] keeps the assets whose name
    ends in [.exe] and lists them in three groups: first those with
    [Standalone] in the name, then, of the others, those with [debug] in
    the lower-cased name, then the rest; within a group the assets keep
    the order of the release.  (The debug builds come before the standard
    ones because the type ['debug'] sorts before ['standard'].) *)
Theorem windows_builds_are_listed_standalone_debug_standard info :
  let names := (λ a, default [] (asset_name a)) <$> default [] (assets info) in
  let exe n := endswith n (chars ".exe") in
  let standalone n := contains (chars "Standalone") n in
  let debug n := contains (chars "debug") (lower n) in
  pa_name <$> parse_release_assets lower format_mb info "windows"
  = filter (λ n, exe n && standalone n = true) names
    ++ filter (λ n, exe n && negb (standalone n) && debug n = true) names
    ++ filter (λ n, exe n && negb (standalone n) && negb (debug n) = true) names.
Proof.
  cbn zeta. unfold parse_release_assets.
  destruct windows_keys_ascend as [Hge Hlt].
  rewrite (sort_by_groups sort_key key_lt _ _ Hge Hlt).
  2:{ apply Forall_forall. intros p (a & _ & Hp)%list_elem_of_omap.
      parse_cases Hp; use_tests; list_mem. }
  cbn [mbind list_bind]. rewrite app_nil_r, !fmap_app.
  f_equal; [|f_equal]; apply group_names.
  all: try (intros a p Hp; parse_cases Hp; use_tests; done).
  all: intros a Hp; parse_cases Hp; use_tests; done.
Qed.

(** X13.  For Linux and macOS, [parse_release_assets] keeps the assets
    whose lower-cased name contains the platform's name and whose name does
    not end in [.exe], and lists those without [debug] in the lower-cased
    name first, then those with it, each group in the order of the
    release. *)
Theorem unix_builds_are_listed_release_then_debug info platform :
  platform ∈ ["linux"; "macos"] →
  let names := (λ a, default [] (asset_name a)) <$> default [] (assets info) in
  let wanted n := contains (chars platform) (lower n)
                  && negb (endswith n (chars ".exe")) in
  let debug n := contains (chars "debug") (lower n) in
  pa_name <$> parse_release_assets lower format_mb info platform
  = filter (λ n, wanted n && negb (debug n) = true) names
    ++ filter (λ n, wanted n && debug n = true) names.
Proof.
  intros Hp. cbn zeta. unfold parse_release_assets.
  destruct unix_keys_ascend as [Hge Hlt].
  rewrite (sort_by_groups sort_key key_lt _ _ Hge Hlt).
  2:{ apply Forall_forall. intros p (a & _ & Hpa)%list_elem_of_omap.
      apply elem_of_cons in Hp as [->|Hp]; [|apply list_elem_of_singleton in Hp as ->];
        parse_cases Hpa; use_tests; list_mem. }
  cbn [mbind list_bind]. rewrite app_nil_r, !fmap_app.
  f_equal; apply group_names.
  all: apply elem_of_cons in Hp as [->|Hp]; [|apply list_elem_of_singleton in Hp as ->].
  all: try (intros a p Hpa; parse_cases Hpa; use_tests; done).
  all: intros a Hpa; parse_cases Hpa; use_tests; done.
Qed.

Lemma all_keys_ascend :
  let ks := [(false, "release"); (false, "standalone");
             (true, "debug"); (true, "standard")] in
  (∀ i j k k', ks !! i = Some k → ks !! j = Some k' → i ≤ j → key_lt k' k = false)
  ∧ (∀ i j k k', ks !! i = Some k → ks !! j = Some k' → i < j → key_lt k k' = true).
Proof.
  cbn zeta. split; intros [|[|[|[|i]]]] [|[|[|[|j]]]] k k' Hi Hj Hij;
    cbn in Hi, Hj; simplify_eq; (lia || reflexivity).
Qed.

Lemma length_omap_le {B C} (f : B → option C) (l : list B) :
  length (omap f l) ≤ length l.
Proof. induction l as [|b l IH]; [done|]. cbn. destruct (f b); cbn; lia. Qed.

(** X14.  Whatever the platform, the recommended entries come first in the
    list: it is a run of recommended entries followed by a run of entries
    that are not.  On Windows the recommended entries are exactly those
    with [Standalone] in the name, on Linux and macOS exactly those without
    [debug] in the lower-cased name. *)
Theorem recommended_builds_come_first info platform :
  let l := parse_release_assets lower format_mb info platform in
  (∃ l1 l2, l = l1 ++ l2
            ∧ Forall (λ p, pa_recommended p = true) l1
            ∧ Forall (λ p, pa_recommended p = false) l2)
  ∧ (platform = "windows" →
     Forall (λ p, pa_recommended p = contains (chars "Standalone") (pa_name p)) l)
  ∧ (platform ∈ ["linux"; "macos"] →
     Forall (λ p, pa_recommended p
                  = negb (contains (chars "debug") (lower (pa_name p)))) l).
Proof.
  cbn zeta. split_and!.
  - unfold parse_release_assets. destruct all_keys_ascend as [Hge Hlt].
    rewrite (sort_by_groups sort_key key_lt _ _ Hge Hlt).
    2:{ apply Forall_forall. intros p (a & _ & Hpa)%list_elem_of_omap.
        destruct (platform_cases platform) as [->|[->|[->|Hother]]];
          [| | |by rewrite parse_asset_other in Hpa];
          parse_cases Hpa; use_tests; list_mem. }
    cbn [mbind list_bind]. rewrite app_nil_r, (assoc_L (++)).
    eexists _, _. split; [reflexivity|].
    rewrite !Forall_app. split_and!; apply Forall_forall;
      intros p [Hk _]%list_elem_of_filter; unfold sort_key in Hk;
      destruct (pa_recommended p); by simplify_eq.
  - intros ->. unfold parse_release_assets.
    rewrite sort_by_perm. apply Forall_forall.
    intros p (a & _ & Hpa)%list_elem_of_omap. parse_cases Hpa; use_tests; done.
  - intros Hp. unfold parse_release_assets.
    rewrite sort_by_perm. apply Forall_forall.
    intros p (a & _ & Hpa)%list_elem_of_omap.
    apply elem_of_cons in Hp as [->|Hp]; [|apply list_elem_of_singleton in Hp as ->];
      parse_cases Hpa; use_tests; done.
Qed.

Lemma no_build_for_other_platforms info platform :
  platform ∉ ["windows"; "linux"; "macos"] →
  parse_release_assets lower format_mb info platform = [].
Proof.
  intros Hp. unfold parse_release_assets.
  apply Permutation_nil_r. rewrite sort_by_perm.
  induction (default [] (assets info)) as [|a l IH]; [done|].
  cbn [omap list_omap]. by rewrite parse_asset_other.
Qed.

(** X15.  The type and the description of an entry go together.  On
    Windows the type is one of ['standalone'], ['debug'] and ['standard']
    and the description is the localized text [up_desc_] followed by the
    type.  On Linux and on macOS alike the type is ['release'] or ['debug']
    and the description is [up_desc_linux_] followed by the type: the
    macOS builds are described with the texts written for Linux. *)
Theorem descriptions_go_by_type info platform :
  let l := parse_release_assets lower format_mb info platform in
  (platform = "windows" →
   Forall (λ p, pa_type p ∈ ["standalone"; "debug"; "standard"]
                ∧ pa_description p = T ("up_desc_" +:+ pa_type p) []) l)
  ∧ (platform ∈ ["linux"; "macos"] →
     Forall (λ p, pa_type p ∈ ["release"; "debug"]
                  ∧ pa_description p = T ("up_desc_linux_" +:+ pa_type p) []) l).
Proof.
  cbn zeta. unfold parse_release_assets. split.
  - intros ->. rewrite sort_by_perm. apply Forall_forall.
    intros p (a & _ & Hpa)%list_elem_of_omap.
    parse_cases Hpa; (split; [cbn; list_mem|reflexivity]).
  - intros Hp. rewrite sort_by_perm. apply Forall_forall.
    intros p (a & _ & Hpa)%list_elem_of_omap.
    apply elem_of_cons in Hp as [->|Hp]; [|apply list_elem_of_singleton in Hp as ->];
      parse_cases Hpa; (split; [cbn; list_mem|reflexivity]).
Qed.

(** X16.  Every entry of the list describes an asset of the release: it
    carries that asset's name, size and download URL (an absent name or URL
    reads as the empty text, an absent size as 0), and its size in
    megabytes is formatted from that size.  The list is never longer than
    the release's assets, and it is empty for any platform other than
    ['windows'], ['linux'] and ['macos']. *)
Theorem listed_entries_are_assets_of_the_release info platform :
  let l := parse_release_assets lower format_mb info platform in
  Forall (λ p, ∃ a, a ∈ default [] (assets info)
                    ∧ pa_name p = default [] (asset_name a)
                    ∧ pa_size p = default 0%Z (asset_size a)
                    ∧ pa_size_mb p = format_mb (pa_size p)
                    ∧ pa_download_url p = default [] (browser_download_url a)) l
  ∧ length l ≤ length (default [] (assets info))
  ∧ (platform ∉ ["windows"; "linux"; "macos"] → l = []).
Proof.
  cbn zeta. unfold parse_release_assets. split_and!.
  - rewrite sort_by_perm. apply Forall_forall.
    intros p (a & Ha & Hpa)%list_elem_of_omap. exists a.
    destruct (platform_cases platform) as [->|[->|[->|Hother]]];
      [| | |by rewrite parse_asset_other in Hpa];
      parse_cases Hpa; done.
  - rewrite sort_by_perm. apply length_omap_le.
  - apply no_build_for_other_platforms.
Qed.

(** X17.  Where the environment variable [PREFIX] mentions [com.termux],
    [get_current_platform] answers ['termux'] whatever [sys.platform] is,
    and for the platform it names [parse_release_assets] lists nothing,
    whatever the release holds. *)
Theorem termux_is_offered_no_build environ w info prefix :
  environ !! "PREFIX" = Some prefix →
  contains (chars "com.termux") (chars prefix) = true →
  get_current_platform environ w = "termux"
  ∧ parse_release_assets lower format_mb info (get_current_platform environ w) = [].
Proof.
  intros Henv Hpre.
  assert (get_current_platform environ w = "termux") as ->.
  { unfold get_current_platform. rewrite Henv. cbn [default from_option id].
    by rewrite Hpre. }
  split; [done|]. apply no_build_for_other_platforms. list_mem.
Qed.
End assets_facts.

Section platform_facts.
Variables (basename dirname : string → string) (join : string → string → string).

(** X18.  The name [get_current_platform] gives and the updater
    [apply_update] picks go together: where the name is ['windows'] the
    call is the one to [apply_windows_update], where it is ['macos'] the
    one to [apply_unix_update], and where it is ['unknown'] the call is
    refused with the unsupported-platform message and [can_auto_update] is
    [False]. *)
Theorem platform_name_agrees_with_dispatch environ w new_path current :
  let name := get_current_platform environ w in
  let any := apply_update basename dirname join new_path current w in
  (name = "windows" →
   any = apply_windows_update basename dirname join new_path current w)
  ∧ (name = "macos" → any = apply_unix_update join new_path current w)
  ∧ (name = "unknown" →
     can_auto_update w = false
     ∧ any = (false, called (Sys_print "up_platform_unsupported") w)).
Proof.
  cbn zeta. unfold get_current_platform, apply_update, can_auto_update.
  destruct (contains _ _); [by split_and!|].
  case_bool_decide as Hwin; [by split_and!|].
  case_bool_decide as Hmac.
  { split_and!; [done| |done]. intros _.
    rewrite (bool_decide_eq_false_2 (platform w = "linux"))
      by (by rewrite Hmac).
    done. }
  destruct (startswith _ _) eqn:Hlin; [by split_and!|].
  assert (platform w ≠ "linux") by (by intros Heq; rewrite Heq in Hlin).
  split_and!; [done|done|]. intros _.
  rewrite (bool_decide_eq_false_2 (platform w = "linux")) by done. cbn.
  rewrite bool_decide_eq_false_2; [done|]. list_mem.
Qed.
End platform_facts.

Lemma unix_builds_are_listed_release_then_debug_witness :
  pa_name <$> parse_release_assets lower_ascii mb_digits sample_release "linux"
  = [chars "fx-linux"; chars "fx-linux-debug"].
Proof.
  rewrite (unix_builds_are_listed_release_then_debug lower_ascii mb_digits
             sample_release "linux") by (by left).
  vm_compute. reflexivity.
Defined.

Lemma recommended_builds_come_first_witness :
  Forall (λ p, pa_recommended p = contains (chars "Standalone") (pa_name p))
    (parse_release_assets lower_ascii mb_digits sample_release "windows").
Proof.
  apply (recommended_builds_come_first lower_ascii mb_digits sample_release
           "windows").
  reflexivity.
Defined.

Lemma descriptions_go_by_type_witness :
  Forall (λ p, pa_type p ∈ ["release"; "debug"]
               ∧ pa_description p = T ("up_desc_linux_" +:+ pa_type p) [])
    (parse_release_assets lower_ascii mb_digits sample_release "macos").
Proof.
  apply (descriptions_go_by_type lower_ascii mb_digits sample_release "macos").
  by right; left.
Defined.

Lemma listed_entries_are_assets_of_the_release_witness :
  parse_release_assets lower_ascii mb_digits sample_release "freebsd" = [].
Proof.
  apply (listed_entries_are_assets_of_the_release lower_ascii mb_digits
           sample_release "freebsd").
  intros Hin. repeat (apply elem_of_cons in Hin as [Hin|Hin]; [discriminate|]).
  by apply elem_of_nil in Hin.
Defined.

Lemma termux_is_offered_no_build_witness :
  parse_release_assets lower_ascii mb_digits sample_release
    (get_current_platform termux_environ unix_world) = [].
Proof.
  apply (termux_is_offered_no_build lower_ascii mb_digits termux_environ unix_world
           sample_release "/data/data/com.termux/files/usr");
    vm_compute; reflexivity.
Defined.

Lemma platform_name_agrees_with_dispatch_witness :
  apply_update id id slash_join "C:/dl/tool.new" None win_world
  = apply_windows_update id id slash_join "C:/dl/tool.new" None win_world.
Proof.
  apply (platform_name_agrees_with_dispatch id id slash_join ∅ win_world
           "C:/dl/tool.new" None).
  vm_compute. reflexivity.
Defined.

Section message_facts.
Variable isspace : N → bool.

Lemma Forall_unmarked (b : text) :
  Forall (λ c, is_markup c = false)
    (strip isspace (filter (λ c, negb (is_markup c)) b)).
Proof.
  apply Forall_strip, Forall_forall. intros c [Hc _]%list_elem_of_filter.
  by destruct (is_markup c).
Qed.

(** X19.  The message of [format_update_message] is the localized text
    [up_auto_update_msg] for the tag (or the unknown-version text when the
    release has no tag key), the release name, the notes and the URL.  The
    notes are never empty, never longer than 303 characters, and hold none
    of the characters [#], [*] and the backquote. *)
Theorem update_notes_are_short_and_plain info :
  ∃ notes,
    format_update_message isspace info
    = T "up_auto_update_msg"
        [default (JStr unknown_version) (tag_name info);
         default (JStr []) (release_name info);
         JStr notes;
         default (JStr []) (html_url info)]
    ∧ notes ≠ [] ∧ length notes ≤ 303
    ∧ Forall (λ c, is_markup c = false) notes.
Proof.
  unfold format_update_message.
  assert (Hplain : Forall (λ c, is_markup c = false) no_notes)
    by (repeat constructor).
  destruct (body info) as [[|[|c b]]|]; cbn [default from_option id truthy];
    try (exists no_notes; split_and!; [done|done|cbn; lia|done]).
  case_bool_decide; set (cleaned := strip isspace _);
    assert (Hclean : Forall (λ c, is_markup c = false) cleaned)
      by apply Forall_unmarked.
  - exists (take 300 cleaned ++ chars "...").
    assert (truthy (JStr (take 300 cleaned ++ chars "...")) = true) as ->
      by (by destruct (take 300 cleaned)).
    split_and!; [done|by destruct (take 300 cleaned)| |].
    + rewrite length_app, length_take.
      assert (length (chars "...") = 3) as -> by reflexivity. lia.
    + apply Forall_app. split; [by apply Forall_take|].
      repeat constructor.
  - destruct (take 300 cleaned) as [|c' s] eqn:Htake; cbn [truthy].
    + exists no_notes. split_and!; [done|done|cbn; lia|done].
    + exists (c' :: s). split_and!; [done|done| |].
      * rewrite <- Htake, length_take. lia.
      * rewrite <- Htake. by apply Forall_take.
Qed.

(** X20.  Which notes are shown for a release with a non-empty body.  The
    body without [#], [*] and backquote, stripped of outer white space, is
    shown whole when the body has at most 300 characters (the no-notes text
    taking its place when nothing is left of it).  When the body has more
    than 300 characters, the first 300 characters of that text are shown,
    followed by three dots: the dots go by the length of the body as it
    came, so they may follow a text from which nothing was cut. *)
Theorem short_notes_are_shown_whole info b :
  body info = Some (JStr b) → b ≠ [] →
  let cleaned := strip isspace (filter (λ c, negb (is_markup c)) b) in
  format_update_message isspace info
  = T "up_auto_update_msg"
      [default (JStr unknown_version) (tag_name info);
       default (JStr []) (release_name info);
       JStr (if bool_decide (300 < length b)
             then take 300 cleaned ++ chars "..."
             else if bool_decide (cleaned = []) then no_notes else cleaned);
       default (JStr []) (html_url info)].
Proof.
  intros Hbody Hb cleaned. unfold format_update_message. rewrite Hbody.
  cbn [default from_option id]. destruct b as [|c b]; [done|].
  case_bool_decide as Hlong; fold cleaned.
  - by destruct (take 300 cleaned).
  - assert (take 300 cleaned = cleaned) as ->.
    { apply take_ge. etrans; [apply length_strip|].
      etrans; [apply length_filter|]. lia. }
    case_bool_decide as Hnil; [by rewrite Hnil|]. by destruct cleaned.
Qed.
End message_facts.

Lemma short_notes_are_shown_whole_witness :
  format_update_message ascii_space sample_release
  = T "up_auto_update_msg"
      [JStr (chars "v2"); JStr (chars "Second"); JStr (chars "Changes");
       JStr (chars "https://example.org/v2")].
Proof.
  rewrite (short_notes_are_shown_whole ascii_space sample_release
             (chars "## Changes  ")); [|reflexivity|discriminate].
  vm_compute. reflexivity.
Defined.

Section check_facts.
Variables (requests_get : text → Z → option response).
Variables (Version : Type) (pkg_parse : text → option Version)
          (version_gt : Version → Version → bool).
Variable isspace : N → bool.

Abbreviation api_url repo :=
  (chars "https://api.github.com/repos/" ++ repo ++ chars "/releases/latest").

(** What a check that succeeds has seen. *)
Lemma check_update_Some current_version repo newer latest :
  check_update requests_get Version pkg_parse version_gt current_version repo
  = Some (newer, latest) →
  ∃ resp data tag current_ver latest_ver,
    requests_get (api_url repo) 10 = Some resp
    ∧ status_code resp = 200%Z ∧ json resp = Some data
    ∧ tag_name latest = Some (JStr tag) ∧ tag ≠ []
    ∧ tag_name data = Some (JStr tag)
    ∧ html_url latest = Some (default (JStr []) (html_url data))
    ∧ parse_version Version pkg_parse current_version = Some current_ver
    ∧ parse_version Version pkg_parse tag = Some latest_ver
    ∧ newer = version_gt latest_ver current_ver.
Proof.
  unfold check_update, get_latest_release.
  destruct (requests_get _ _) as [resp|]; [|discriminate].
  case_bool_decide as Hst; [|discriminate].
  destruct (json resp) as [data|] eqn:Hjson; [|discriminate].
  cbn [tag_name default from_option id].
  destruct (tag_name data) as [[|[|c tag]]|] eqn:Htag; cbn [default from_option id];
    try discriminate.
  destruct (parse_version _ _ current_version) as [cv|]; [|discriminate].
  destruct (parse_version _ _ (c :: tag)) as [lv|] eqn:Hlv; [|discriminate].
  intros [= <- <-]. exists resp, data, (c :: tag), cv, lv. cbn. by split_and!.
Qed.

(** X21.  Whenever [check_and_notify] returns a dictionary, the release in
    it has a non-empty tag, which is the latest version reported; both that
    tag and the current version were parsed as versions, and [has_update]
    says whether the former is greater.  With an update, the message is the
    formatted one and the URL that of the release, and what is printed is
    that message between two rules of 60 [=]; without, both are empty and
    the up-to-date message is printed.  Nothing is printed when silent. *)
Theorem reported_release_is_checked current repo silent n out :
  check_and_notify requests_get Version pkg_parse version_gt isspace
    current repo silent = (Some n, out) →
  ∃ tag current_ver latest_ver,
    latest_version n = JStr tag ∧ tag ≠ []
    ∧ tag_name (release_info n) = Some (JStr tag)
    ∧ parse_version Version pkg_parse current = Some current_ver
    ∧ parse_version Version pkg_parse tag = Some latest_ver
    ∧ has_update n = version_gt latest_ver current_ver
    ∧ current_version n = current
    ∧ if has_update n
      then message n = format_update_message isspace (release_info n)
           ∧ Some (url n) = html_url (release_info n)
           ∧ out = (if silent then []
                    else [Plain (10%N :: replicate 60 61%N); message n;
                          Plain (replicate 60 61%N ++ [10%N])])
      else message n = Plain [] ∧ url n = JStr []
           ∧ out = (if silent then [] else [T "up_latest" [JStr current]]).
Proof.
  unfold check_and_notify.
  destruct (check_update _ _ _ _ _ _) as [[newer latest]|] eqn:Hcheck;
    [|discriminate].
  apply check_update_Some in Hcheck
    as (resp & data & tag & cv & lv & _ & _ & _ & Htag & Hne & _ & Hurl & Hcv & Hlv
        & ->).
  destruct (version_gt lv cv) eqn:Hgt; intros [= <- <-]; cbn;
    exists tag, cv, lv; rewrite Htag, ?Hurl; cbn; by split_and!.
Qed.

(** X22.  The request goes to the latest-release address of the
    repository with a timeout of 10 seconds.  When it raises, or answers
    with a status other than 200, or with a body that is not a JSON object,
    or with a release whose tag is absent, null or empty,
    [check_and_notify] returns [None]; it prints the check-failed message,
    and nothing at all when silent. *)
Theorem failed_request_is_a_failed_check current_version repo silent :
  (match requests_get (api_url repo) 10 with
   | None => True
   | Some resp =>
       status_code resp ≠ 200%Z
       ∨ match json resp with
         | None => True
         | Some data => truthy (default (JStr []) (tag_name data)) = false
         end
   end) →
  check_and_notify requests_get Version pkg_parse version_gt isspace
    current_version repo silent
  = (None, if silent then [] else [T "up_check_fail" []]).
Proof.
  intros H. unfold check_and_notify.
  destruct (check_update _ _ _ _ _ _) as [[newer latest]|] eqn:Hcheck; [|done].
  exfalso.
  apply check_update_Some in Hcheck
    as (resp & data & tag & cv & lv & Hget & Hst & Hjson & _ & Hne & Htag & _).
  rewrite Hget, Hjson, Htag in H. destruct H as [H|H]; [done|].
  cbn in H. by destruct tag.
Qed.

(** X23.  Any number of leading [v] characters in the current version make
    no difference: the version parsed, the outcome of [check_update] and
    the update flag of [check_and_notify] are those of the version without
    them. *)
Theorem leading_v_is_ignored n current_version repo silent :
  let v_current := replicate n 118%N ++ current_version in
  parse_version Version pkg_parse v_current
  = parse_version Version pkg_parse current_version
  ∧ check_update requests_get Version pkg_parse version_gt v_current repo
    = check_update requests_get Version pkg_parse version_gt current_version repo
  ∧ has_update <$> (check_and_notify requests_get Version pkg_parse version_gt
                      isspace v_current repo silent).1
    = has_update <$> (check_and_notify requests_get Version pkg_parse version_gt
                        isspace current_version repo silent).1.
Proof.
  cbn zeta.
  assert (Hp : parse_version Version pkg_parse (replicate n 118%N ++ current_version)
               = parse_version Version pkg_parse current_version).
  { unfold parse_version. rewrite lstrip_app_gone; [done|].
    apply Forall_replicate. reflexivity. }
  assert (Hc : check_update requests_get Version pkg_parse version_gt
                 (replicate n 118%N ++ current_version) repo
               = check_update requests_get Version pkg_parse version_gt
                   current_version repo).
  { unfold check_update. by rewrite Hp. }
  split_and!; [done|done|].
  unfold check_and_notify. rewrite Hc. clear Hp Hc.
  destruct (check_update _ _ _ _ _ _) as [[newer ?]|]; [destruct newer|]; reflexivity.
Qed.
End check_facts.

Lemma reported_release_is_checked_witness :
  ∃ n out tag,
    check_and_notify sample_get N digit_parse digit_gt ascii_space
      (chars "v1") (chars "owner/repo") true = (Some n, out)
    ∧ latest_version n = JStr tag ∧ tag ≠ [].
Proof.
  destruct (check_and_notify sample_get N digit_parse digit_gt ascii_space
              (chars "v1") (chars "owner/repo") true) as [[n|] out] eqn:Hrun;
    [|vm_compute in Hrun; discriminate].
  destruct (reported_release_is_checked sample_get N digit_parse digit_gt
              ascii_space (chars "v1") (chars "owner/repo") true n out Hrun)
    as (tag & cv & lv & Hlatest & Hne & _).
  by exists n, out, tag.
Defined.

Lemma failed_request_is_a_failed_check_witness :
  check_and_notify offline_get N digit_parse digit_gt ascii_space
    (chars "1") (chars "owner/repo") false
  = (None, [T "up_check_fail" []]).
Proof.
  apply (failed_request_is_a_failed_check offline_get N digit_parse digit_gt
           ascii_space (chars "1") (chars "owner/repo") false).
  exact I.
Defined.
